(** * ProjectBase: a shallow embedding of packages/server/lib/project-base.ts

    The class [ProjectBase] orchestrates the life cycle of one test-project
    session.  Almost everything it does is a call to a collaborator (config,
    plugins, scaffold, the server, the watchers, the saved state, the remote
    API), so the embedding is a state-and-exception monad over

    - the fields of the instance ([Project]),
    - a heap of configuration objects (the code mutates them in place and
      shares them by reference),
    - the trace of collaborator calls made so far, answered by an arbitrary
      history-dependent environment.

    JavaScript values are dynamically typed; objects are finite maps from
    property names to values. *)

From Stdlib Require Import ZArith String Ascii List DecimalString.
From stdpp Require Import gmap strings list fin_maps.

Set Warnings "-register-all".
Local Open Scope string_scope.
Local Open Scope list_scope.
Local Open Scope Z_scope.

(* ===================================================================== *)
(** ** JavaScript values *)
(* ===================================================================== *)

(** Function values: the empty-bodied defaults installed by [_.defaults] in
    [open], functions supplied by the caller (named, invoked through the
    environment) and the closure [(state) => this.saveState(state)] that
    [open] stores in [options.onSavedStateChanged]. *)
Inductive fn :=
| Noop
| Extern (name : string)
| SaveState.

(** Numbers are the integers (ports, timestamps, HTTP status codes and
    viewport sizes are all the numbers this file computes with). *)
Inductive value :=
| VUndef
| VNull
| VBool (b : bool)
| VNum (z : Z)
| VStr (s : string)
| VFun (f : fn)
| VArr (l : list value)
| VObj (m : gmap string value).

Abbreviation obj := (gmap string value).

(** [o.k]: a missing property reads as [undefined]. *)
Definition field (o : obj) (k : string) : value := default VUndef (o !! k).

(** ToBoolean. *)
Definition truthy (v : value) : bool :=
  match v with
  | VUndef | VNull => false
  | VBool b => b
  | VNum z => negb (Z.eqb z 0)
  | VStr s => negb (String.eqb s "")
  | VFun _ | VArr _ | VObj _ => true
  end.

(** [v == null]. *)
Definition nullish (v : value) : bool :=
  match v with VUndef | VNull => true | _ => false end.

(** [a ?? b]. *)
Definition coalesce (a b : value) : value := if nullish a then b else a.

(** [v === 's'] for a string literal, [v === false], [v === n]. *)
Definition is_str (v : value) (s : string) : bool :=
  match v with VStr t => String.eqb t s | _ => false end.

Definition is_false (v : value) : bool :=
  match v with VBool false => true | _ => false end.

Definition is_num (v : value) (n : Z) : bool :=
  match v with VNum z => Z.eqb z n | _ => false end.

(** The decimal numeral of an integer, as ToString prints it. *)
Definition string_of_Z (z : Z) : string := NilZero.string_of_int (Z.to_int z).

(** [Array.prototype.join] over already converted elements. *)
Fixpoint join (sep : string) (l : list string) : string :=
  match l with
  | [] => ""
  | [s] => s
  | s :: t => s +:+ sep +:+ join sep t
  end.

(** ToString, also used for property keys.  The source text of a function
    is not modelled: a function prints as its name. *)
Fixpoint toString (v : value) : string :=
  match v with
  | VUndef => "undefined"
  | VNull => "null"
  | VBool true => "true"
  | VBool false => "false"
  | VNum z => string_of_Z z
  | VStr s => s
  | VFun Noop => "function () {}"
  | VFun (Extern n) => n
  | VFun SaveState => "(state) => this.saveState(state)"
  | VArr l =>
      join "," (map (λ x, if nullish x then "" else toString x) l)
  | VObj _ => "[object Object]"
  end.

(** The string an element contributes to [Array.prototype.join]. *)
Definition joinItem (v : value) : string :=
  if nullish v then "" else toString v.

(** [_.extend({}, a, b)]: own properties of [b] override those of [a]. *)
Definition extend (a b : obj) : obj := b ∪ a.

(** [_.defaults(o, d)]: a property of [d] is copied when [o] has it
    missing or [undefined]. *)
Definition defaults (o d : obj) : obj :=
  merge (λ vo vd, match vo, vd with
                  | Some VUndef, Some v | None, Some v => Some v
                  | _, _ => vo
                  end) o d.

(** Errors are objects: [name], [message] and whatever else the thrower
    attached ([statusCode], [code], [stack]). *)
Abbreviation error := (gmap string value) (only parsing).

Definition JsError (message : string) : error :=
  {[ "name" := VStr "Error"; "message" := VStr message ]}.

Definition TypeError (message : string) : error :=
  {[ "name" := VStr "TypeError"; "message" := VStr message ]}.

Inductive result (A : Type) :=
| Ok (a : A)
| Throw (e : error).
Arguments Ok {A} a.
Arguments Throw {A} e.

(** [v.k]: reading a property of [undefined] or [null] throws; the
    primitives have none of the properties this file reads. *)
Definition prop (v : value) (k : string) : result value :=
  match v with
  | VUndef | VNull =>
      Throw (TypeError ("Cannot read property '" +:+ k +:+ "' of " +:+ toString v))
  | VObj m => Ok (field m k)
  | _ => Ok VUndef
  end.

(** [_.get(o, 'a.b', dflt)] for a two-step path. *)
Definition get2 (o : obj) (a b : string) (dflt : value) : value :=
  match field o a with
  | VObj m => match field m b with VUndef => dflt | v => v end
  | _ => dflt
  end.

(* ===================================================================== *)
(** ** Collaborators, events and the state *)
(* ===================================================================== *)

Inductive RunnerType := e2e | ct.

Abbreviation loc := nat.

(** A call to a collaborator, indexed by the type of what it yields.  The
    arguments are the ones the code passes (callbacks apart). *)
Inductive call : Type → Type :=
| ConfigGet (projectRoot : string) (options : value) : call obj
| ScaffoldIsNewProject (cfg : obj) : call value
| SavedStateCreate (projectRoot : string) (isTextTerminal : value) : call unit
| ProcessChdir (dir : string) : call unit
| ProcessEnv (name : string) : call value
| ScaffoldPlugins (dir : value) (cfg : obj) : call unit
| PluginsInit (allowedCfg : obj) (projectRoot : string)
              (configFile testingType : value) : call value
| SpecsFind (cfg : obj) : call (list obj)
| DevServerStart (specs : list obj) (cfg : obj) : call value
| StoreSpecFiles (t : RunnerType) : call unit
| SpecsStoreWatch (t : RunnerType) : call unit
| ServerOpen (t : RunnerType) (cfg : obj) : call (value * value)
| ServerStartWebsockets (cfg : obj) (options : obj) : call unit
| ServerClose : call unit
| ServerReset : call value
| ServerChangeToUrl (url : value) : call unit
| AutomationReset : call unit
| WatchersWatch (path : value) : call unit
| WatchersWatchTree (path : value) : call unit
| WatchersClose : call unit
| PreprocessorClose : call unit
| BrowsersClose : call unit
| ReporterLoad (reporter projectRoot : value) : call unit
| ReporterSearchPaths (reporter projectRoot : value) : call value
| ReporterCreate (reporter reporterOptions projectRoot : value) : call value
| ScaffoldSupport (folder : value) (cfg : obj) : call unit
| ScaffoldIntegration (folder : value) (cfg : obj) : call unit
| ScaffoldFixture (folder : value) (cfg : obj) : call unit
| ScaffoldRemoveIntegration (folder : value) (cfg : obj) : call value
| FsPathExists (path : value) : call bool
| SystemInfo : call obj
| RunEventsExecute (event : string) (cfg : obj) (details : value) : call value
| Callback (f : string) (args : list value) : call value
| UserEnsureAuthToken : call value
| ApiGetProjects (authToken : value) : call (option (list obj))
| ApiGetProject (id authToken : value) : call obj
| ApiGetProjectRuns (projectId authToken : value) : call value
| ApiGetProjectRecordKeys (projectId authToken : value) : call value
| ApiRequestAccess (projectId authToken : value) : call value
| ApiGetOrgs (authToken : value) : call value
| ApiCreateProject (projectDetails remoteOrigin authToken : value) : call obj
| CommitInfoGetRemoteOrigin (projectRoot : string) : call value
| FsStat (path : string) : call unit
| SettingsRead (projectRoot : string) (options : value) : call value
| SettingsWrite (projectRoot : string) (attrs : obj) : call unit.

Inductive event :=
| Ev {A : Type} (c : call A).

(** The collaborating modules: their pure helpers, and [answer A tr c],
    what the call [c] yields after the calls [tr] (the environment may answer
    the same call differently each time). *)
Record Env := {
  answer : ∀ A : Type, list event → call A → result A;
  config_allowed : obj → obj;
  config_updateWithPluginValues : obj → value → result obj;
  config_setUrls : obj → obj;
  errors_get : string → list value → error;
  errors_getMsgByType : string → value → value;
  settings_pathToConfigFile : string → obj → value;
  settings_pathToCypressEnvJson : string → value;
  settings_configFile : obj → value;
  path_dirname : value → value;
  path_resolve : string → string;
  path_prefix : value → value → value → value → result string;
  escapeFilenameInUrl : string → string;
  pkg_version : value;
  localCwd : string;
}.

(** The arguments [new Automation(...)] was built with. *)
Record Automation := {
  namespace : value;
  socketIoCookie : value;
  screenshotsFolder : value;
}.

(** The fields of a [ProjectBase] instance. *)
Record Project := mkProject {
  projectRoot : string;
  projectType : RunnerType;
  options : value;
  _cfg : option loc;
  _server : option RunnerType;
  _automation : option Automation;
  spec : value;
  browser : value;
  generatedProjectIdTimestamp : option Z;
}.

(** The [onChange] closures the instance hands to its [Watchers]. *)
Inductive handler :=
| PluginsFileChanged (cfg : loc) (options : obj)
| SettingsChanged (onSettingsChanged : value).

Record St := mkSt {
  this : Project;
  heap : list obj;
  trace : list event;
  persisted : gmap string obj;
  clock : Z;
  watched : list (value * handler);
  pluginsOnError : option obj;
}.

Definition set_this (f : Project → Project) (s : St) : St :=
  mkSt (f (this s)) (heap s) (trace s) (persisted s) (clock s) (watched s)
       (pluginsOnError s).
Definition set_heap (f : list obj → list obj) (s : St) : St :=
  mkSt (this s) (f (heap s)) (trace s) (persisted s) (clock s) (watched s)
       (pluginsOnError s).
Definition set_trace (f : list event → list event) (s : St) : St :=
  mkSt (this s) (heap s) (f (trace s)) (persisted s) (clock s) (watched s)
       (pluginsOnError s).
Definition set_persisted (f : gmap string obj → gmap string obj) (s : St) : St :=
  mkSt (this s) (heap s) (trace s) (f (persisted s)) (clock s) (watched s)
       (pluginsOnError s).
Definition set_watched (f : list (value * handler) → list (value * handler))
    (s : St) : St :=
  mkSt (this s) (heap s) (trace s) (persisted s) (clock s) (f (watched s))
       (pluginsOnError s).
Definition set_pluginsOnError (o : option obj) (s : St) : St :=
  mkSt (this s) (heap s) (trace s) (persisted s) (clock s) (watched s) o.
Definition set_clock (t : Z) (s : St) : St :=
  mkSt (this s) (heap s) (trace s) (persisted s) t (watched s)
       (pluginsOnError s).

Definition with_options (v : value) (p : Project) : Project :=
  mkProject (projectRoot p) (projectType p) v (_cfg p) (_server p)
            (_automation p) (spec p) (browser p) (generatedProjectIdTimestamp p).
Definition with_cfg (c : option loc) (p : Project) : Project :=
  mkProject (projectRoot p) (projectType p) (options p) c (_server p)
            (_automation p) (spec p) (browser p) (generatedProjectIdTimestamp p).
Definition with_server (x : option RunnerType) (p : Project) : Project :=
  mkProject (projectRoot p) (projectType p) (options p) (_cfg p) x
            (_automation p) (spec p) (browser p) (generatedProjectIdTimestamp p).
Definition with_automation (a : option Automation) (p : Project) : Project :=
  mkProject (projectRoot p) (projectType p) (options p) (_cfg p) (_server p)
            a (spec p) (browser p) (generatedProjectIdTimestamp p).
Definition with_spec_browser (sp br : value) (p : Project) : Project :=
  mkProject (projectRoot p) (projectType p) (options p) (_cfg p) (_server p)
            (_automation p) sp br (generatedProjectIdTimestamp p).

(* ===================================================================== *)
(** ** The monad *)
(* ===================================================================== *)

Definition M (A : Type) : Type := St → result A * St.

Definition ret {A} (a : A) : M A := λ s, (Ok a, s).
Definition throw {A} (e : error) : M A := λ s, (Throw e, s).
Definition bind {A B} (m : M A) (k : A → M B) : M B :=
  λ s, match m s with
       | (Ok a, s') => k a s'
       | (Throw e, s') => (Throw e, s')
       end.

#[global] Instance M_ret : MRet M := @ret.
#[global] Instance M_bind : MBind M := λ A B k m, bind m k.

(** [try { m } catch (err) { h err }]. *)
Definition catch {A} (m : M A) (h : error → M A) : M A :=
  λ s, match m s with
       | (Ok a, s') => (Ok a, s')
       | (Throw e, s') => h e s'
       end.

(** A value or a thrown error that was computed without effects. *)
Definition lift {A} (r : result A) : M A := λ s, (r, s).

Definition gets {A} (f : St → A) : M A := λ s, (Ok (f s), s).
Definition modify (f : St → St) : M unit := λ s, (Ok tt, f s).

(** Promises.  Calling an async function (or a collaborator that returns a
    promise) runs it and yields its settled outcome; nothing is thrown until
    the promise is awaited.  Every collaborator call is atomic, so the
    promises of one [Promise.all] settle in the order they were created. *)
Definition start {A} (m : M A) : M (result A) :=
  λ s, let '(r, s') := m s in (Ok r, s').

Definition await {A} (p : result A) : M A := lift p.

(** The outcome of [Promise.all]: every value, or the first rejection. *)
Fixpoint all {A} (ps : list (result A)) : result (list A) :=
  match ps with
  | [] => Ok []
  | Ok a :: t => match all t with Ok l => Ok (a :: l) | Throw e => Throw e end
  | Throw e :: _ => Throw e
  end.

(** [_.map(xs, f)] where [f] may return a promise. *)
Fixpoint startEach {A B} (f : A → M B) (xs : list A) : M (list (result B)) :=
  match xs with
  | [] => ret []
  | x :: t => p ← start (f x); ps ← startEach f t; ret (p :: ps)
  end.

(** Forget what a promise resolved to. *)
Definition void {A} (p : result A) : result unit :=
  match p with Ok _ => Ok tt | Throw e => Throw e end.

(** Heap of configuration objects.  Objects are never freed; a location
    that was never allocated does not occur and reads as the empty object. *)
Definition alloc (o : obj) : M loc :=
  λ s, (Ok (length (heap s)), set_heap (λ h, h ++ [o]) s).
Definition deref (l : loc) : M obj :=
  gets (λ s, default ∅ (heap s !! l)).
Definition rd (l : loc) (k : string) : M value :=
  o ← deref l; ret (field o k).
Definition wr (l : loc) (k : string) (v : value) : M unit :=
  modify (set_heap (λ h, alter (λ o, <[k := v]> o) l h)).

(* ===================================================================== *)
(** ** Strings of [normalizeSpecUrl] and [getPrefixedPathToSpec] *)
(* ===================================================================== *)

Definition slash : ascii := "/"%char.
Definition colon : ascii := ":"%char.
Definition backslash : ascii := "\"%char.

(** [s.replace(backSlashesRe, '/')] with [backSlashesRe = /\\/g]. *)
Fixpoint replaceBackSlashes (s : string) : string :=
  match s with
  | EmptyString => EmptyString
  | String c t =>
      String (if Ascii.eqb c backslash then slash else c) (replaceBackSlashes t)
  end.

(** [s.replace(multipleForwardSlashesRe, replacer)] with
    [multipleForwardSlashesRe = /[^:\/\/](\/{2,})/g] and
    [replacer = (match) => match.replace('//', '/')].

    A match is a character other than [:] and [/] followed by all the
    slashes after it, two at least; the replacer removes the first of them.
    The search resumes after the match: what is left of the run is slashes,
    where no match starts, so resuming at the second slash is the same. *)
Fixpoint replaceMultipleForwardSlashes (s : string) : string :=
  match s with
  | EmptyString => EmptyString
  | String c t =>
      match t with
      | String c1 (String c2 _ as t') =>
          if negb (Ascii.eqb c colon) && negb (Ascii.eqb c slash)
             && Ascii.eqb c1 slash && Ascii.eqb c2 slash
          then String c (replaceMultipleForwardSlashes t')
          else String c (replaceMultipleForwardSlashes t)
      | _ => String c (replaceMultipleForwardSlashes t)
      end
  end.

(* ===================================================================== *)
(** ** The class *)
(* ===================================================================== *)

(** How a caller passes an optional object argument. *)
Inductive optarg :=
| Omitted
| Null
| Given (o : obj).

Section ProjectBase.

Context (E : Env).

(** A call to a collaborator: answered by the environment and recorded. *)
Definition ext {A} (c : call A) : M A :=
  λ s, (answer E A (trace s) c, set_trace (λ t, t ++ [Ev c]) s).

Definition getThis {A} (f : Project → A) : M A := gets (λ s, f (this s)).

(** Modelled from the spec: [ensureProp] of ./util/class-helpers is not
    among the sources.  It backs the "lazy ensure-or-throw accessors" of the
    session server, the automation and the config: the accessor yields the
    property when it is set and throws otherwise. *)
Definition ensureProp {A} (prop : option A) (methodName : string) : M A :=
  match prop with
  | Some p => ret p
  | None => throw (JsError ("ProjectBase#" +:+ methodName +:+ " must first be called"))
  end.

Definition server : M RunnerType := p ← getThis _server; ensureProp p "open".
Definition automation : M Automation := p ← getThis _automation; ensureProp p "open".
Definition cfg : M loc := p ← getThis _cfg; ensureProp p "open".
Definition state : M value := c ← cfg; rd c "state".

(** Modelled from the spec: ./saved_state is not among the sources.  The
    persisted state is a durable blob keyed by project root;
    [load(root, isHeadless)] yields a handle whose [merge(partial)] merges
    the partial state into the blob and whose [get] reads it. *)
Definition savedState_set (root : string) (changes : obj) : M unit :=
  modify (set_persisted (λ p, <[root := changes ∪ default ∅ (p !! root)]> p)).
Definition savedState_get (root : string) : M obj :=
  gets (λ s, default ∅ (persisted s !! root)).

(** Modelled from the spec: ./watchers is not among the sources.  The
    registry keeps the [onChange] of every [watch] and [watchTree] until
    [close] releases them all. *)
Definition watchers_watch (path : value) (h : handler) : M unit :=
  ext (WatchersWatch path);; modify (set_watched (λ w, w ++ [(path, h)])).
Definition watchers_watchTree (path : value) (h : handler) : M unit :=
  ext (WatchersWatchTree path);; modify (set_watched (λ w, w ++ [(path, h)])).
Definition watchers_close : M unit :=
  ext WatchersClose;; modify (set_watched (λ _, [])).

Definition injectCtSpecificConfig (cfg : loc) : M loc :=
  c ← deref cfg;
  let rawJson := field c "rawJson" in
  vh ← lift (prop rawJson "viewportHeight");
  vw ← lift (prop rawJson "viewportWidth");
  alloc (<["viewportWidth" := coalesce vw (VNum 500)]>
           (<["viewportHeight" := coalesce vh (VNum 500)]> c)).

(** [updatedConfig.resolved.testingType = { value: 'component' }]. *)
Definition setResolvedTestingType (cfg : loc) : M unit :=
  resolved ← rd cfg "resolved";
  match resolved with
  | VObj r =>
      wr cfg "resolved"
         (VObj (<["testingType" := VObj {[ "value" := VStr "component" ]}]> r))
  | VUndef | VNull =>
      throw (TypeError ("Cannot set property 'testingType' of " +:+ toString resolved))
  | VFun _ | VArr _ => ret tt
  | _ => throw (TypeError "Cannot create property 'testingType'")
  end.

Definition devServerError : string :=
  join (String "010"%char "")
    [ "It looks like nothing was returned from on('dev-server:start', {here}).";
      "Make sure that the dev-server:start function returns an object.";
      "For example: on(" +:+ String "034"%char "dev-server:start"
        +:+ String "034"%char ", () => startWebpackDevServer({ webpackConfig }))" ].

Definition startCtDevServer (specs : list obj) (config : loc) : M value :=
  c ← deref config;
  devServerOptions ← ext (DevServerStart specs c);
  if negb (truthy devServerOptions) then throw (JsError devServerError)
  else lift (prop devServerOptions "port").

(** Yields the [cfg] of the object it returns; the [startSpecWatcher] of
    that object is [startSpecWatcher] below. *)
Definition initSpecStore (specs : list obj) (config : loc) : M loc :=
  t ← getThis projectType;
  match t with
  | ct =>
      port ← startCtDevServer specs config;
      wr config "baseUrl" (VStr ("http://localhost:" +:+ toString port))
  | e2e => ret tt
  end;;
  ext (StoreSpecFiles t);;
  ret config.

Definition startSpecWatcher : M unit :=
  t ← getThis projectType; ext (SpecsStoreWatch t).

(** The [onError] handed to [plugins.init] is [(err) => this._onError(err,
    options)]; the plugin host keeps it, see [pluginError]. *)
Definition _initPlugins (cfg : loc) (options : obj) : M loc :=
  c ← deref cfg;
  let allowedCfg := config_allowed E c in
  root ← getThis projectRoot;
  modify (set_pluginsOnError (Some options));;
  modifiedCfg ← ext (PluginsInit allowedCfg root
                       (settings_pathToConfigFile E root options)
                       (field options "testingType"));
  c ← deref cfg;
  merged ← lift (config_updateWithPluginValues E c modifiedCfg);
  updatedConfig ← alloc merged;
  t ← getThis projectType;
  match t with
  | ct =>
      wr updatedConfig "componentTesting" (VBool true);;
      setResolvedTestingType updatedConfig
  | e2e => ret tt
  end;;
  uc ← deref updatedConfig;
  found ← ext (SpecsFind uc);
  let specs :=
    filter (λ spec : obj, Is_true (is_str (field spec "specType")
                            match t with ct => "component" | e2e => "integration" end))
           found in
  initSpecStore specs updatedConfig.

(** Yields [cfg], [port] and [warning] of the object it returns. *)
Definition onOpen (_cfg : loc) (options : obj) : M (loc * value * value) :=
  t ← getThis projectType;
  modify (set_this (with_server (Some t)));;
  cfg ← _initPlugins _cfg options;
  updatedCfg ← match t with
               | e2e => ret cfg
               | ct => injectCtSpecificConfig cfg
               end;
  srv ← server;
  c ← deref updatedCfg;
  '(port, warning) ← ext (ServerOpen srv c);
  ret (updatedCfg, port, warning).

Definition setNewProject (cfg : loc) : M unit :=
  isTextTerminal ← rd cfg "isTextTerminal";
  if truthy isTextTerminal then ret tt else
  integrationFolder ← rd cfg "integrationFolder";
  if negb (truthy integrationFolder)
  then throw (JsError "Missing integration folder") else
  c ← deref cfg;
  untouchedScaffold ← ext (ScaffoldIsNewProject c);
  c ← deref cfg;
  let userHasSeenBanner := get2 c "state" "showedNewProjectBanner" (VBool false) in
  wr cfg "isNewProject"
     (if truthy untouchedScaffold then VBool (negb (truthy userHasSeenBanner))
      else untouchedScaffold).

Definition _setSavedState (cfg : loc) : M loc :=
  root ← getThis projectRoot;
  isTextTerminal ← rd cfg "isTextTerminal";
  ext (SavedStateCreate root isTextTerminal);;
  state ← savedState_get root;
  wr cfg "state" (VObj state);;
  ret cfg.

(** [options = {}] is the default of an omitted argument; [null] selects
    [this.options]. *)
Definition getConfig (arg : optarg) : M loc :=
  this_options ← getThis options;
  let opts := match arg with
              | Omitted => VObj ∅
              | Null => this_options
              | Given o => VObj o
              end in
  stored ← getThis _cfg;
  match stored with
  | Some c => ret c
  | None =>
      root ← getThis projectRoot;
      theCfg ← ext (ConfigGet root opts);
      theCfg ← alloc theCfg;
      setNewProject theCfg;;
      _setSavedState theCfg
  end.

(** An object is truthy, so once the accessor [this.cfg] has returned the
    guard [if (!this.cfg)] does not fire. *)
Definition saveState (stateChanges : obj) : M obj :=
  _ ← cfg;
  root ← getThis projectRoot;
  if String.eqb root "" then throw (JsError "Missing project root") else
  c ← cfg;
  isTextTerminal ← rd c "isTextTerminal";
  ext (SavedStateCreate root isTextTerminal);;
  savedState_set root stateChanges;;
  state ← savedState_get root;
  c ← cfg;
  wr c "state" (VObj state);;
  ret state.

(** Calling a function value. *)
Definition invoke (f : value) (args : list value) : M value :=
  match f with
  | VFun Noop => ret VUndef
  | VFun (Extern n) => ext (Callback n args)
  | VFun SaveState =>
      state ← saveState match args with VObj o :: _ => o | _ => ∅ end;
      ret (VObj state)
  | _ => throw (TypeError (toString f +:+ " is not a function"))
  end.

Definition removeScaffoldedFiles : M value :=
  _ ← cfg;
  c ← cfg;
  integrationFolder ← rd c "integrationFolder";
  c ← cfg;
  o ← deref c;
  ext (ScaffoldRemoveIntegration integrationFolder o).

Definition checkSupportFile (cfg : loc) : M unit :=
  supportFile ← rd cfg "supportFile";
  if truthy supportFile then
    found ← ext (FsPathExists supportFile);
    if negb found then
      c ← deref cfg;
      throw (errors_get E "SUPPORT_FILE_NOT_FOUND"
               [supportFile; settings_configFile E c])
    else ret tt
  else ret tt.

Definition _onError (err : error) (options : obj) : M value :=
  ext BrowsersClose;;
  invoke (field options "onError") [VObj err].

Definition watchPluginsFile (cfg : loc) (options : obj) : M unit :=
  pluginsFile ← rd cfg "pluginsFile";
  if negb (truthy pluginsFile) || truthy (field options "isTextTerminal")
  then ret tt else
  found ← ext (FsPathExists pluginsFile);
  if negb found then ret tt else
  pluginsFile ← rd cfg "pluginsFile";
  watchers_watchTree pluginsFile (PluginsFileChanged cfg options).

Definition watchSettings (onSettingsChanged : value) (options : obj) : M unit :=
  if negb (truthy onSettingsChanged) then ret tt else
  let obj := SettingsChanged onSettingsChanged in
  root ← getThis projectRoot;
  (if negb (is_false (field options "configFile"))
   then watchers_watch (settings_pathToConfigFile E root options) obj
   else ret tt);;
  watchers_watch (settings_pathToCypressEnvJson E root) obj.

Definition watchSettingsAndStartWebsockets (options : obj) (cfg : loc) : M unit :=
  watchSettings (field options "onSettingsChanged") options;;
  projectRoot ← rd cfg "projectRoot";
  reporter ← rd cfg "reporter";
  report ← rd cfg "report";
  (if truthy report then
     catch (ext (ReporterLoad reporter projectRoot))
           (λ err,
              paths ← ext (ReporterSearchPaths reporter projectRoot);
              let errorMsg := if is_str (field err "code") "MODULE_NOT_FOUND"
                              then field err "message" else field err "stack" in
              throw (errors_get E "INVALID_REPORTER_NAME"
                       [VObj {[ "paths" := paths; "error" := errorMsg;
                                "name" := reporter ]}]));;
     reporterOptions ← rd cfg "reporterOptions";
     ext (ReporterCreate reporter reporterOptions projectRoot);;
     ret tt
   else ret tt);;
  ns ← rd cfg "namespace";
  cookie ← rd cfg "socketIoCookie";
  folder ← rd cfg "screenshotsFolder";
  modify (set_this (with_automation (Some (Build_Automation ns cookie folder))));;
  _ ← server;
  _ ← automation;
  c ← deref cfg;
  ext (ServerStartWebsockets c options).

Definition scaffold (cfg : loc) : M (list unit) :=
  c ← deref cfg;
  p1 ← start (ext (ScaffoldSupport (field c "supportFolder") c));
  force ← ext (ProcessEnv "CYPRESS_INTERNAL_FORCE_SCAFFOLD");
  let scaffoldExamples := negb (truthy (field c "isTextTerminal")) || truthy force in
  if scaffoldExamples then
    p2 ← start (ext (ScaffoldIntegration (field c "integrationFolder") c));
    p3 ← start (ext (ScaffoldFixture (field c "fixturesFolder") c));
    await (all [p1; p2; p3])
  else await (all [p1]).

(** The body of the [.each] over the browsers that are not of the chromium
    family: the elements before one that cannot take the property have
    already been changed when the assignment throws. *)
Fixpoint eachWarning (msg : value → value) (l : list value)
    : list value * option error :=
  match l with
  | [] => ([], None)
  | VObj b :: t =>
      let b' := if is_str (field b "family") "chromium" then b
                else <["warning" := msg (field b "name")]> b in
      let '(t', e) := eachWarning msg t in (VObj b' :: t', e)
  | (VFun _ | VArr _) as x :: t =>
      let '(t', e) := eachWarning msg t in (x :: t', e)
  | x :: t => (x :: t, Some (TypeError "Cannot create property 'warning'"))
  end.

(** [cfg.browsers] is an array when it is there; the filter reads [family]
    of every element before any of them is changed. *)
Definition warnBrowsers (cfg : loc) : M unit :=
  browsers ← rd cfg "browsers";
  match browsers with
  | VArr l =>
      if existsb nullish l
      then throw (TypeError "Cannot read property 'family'")
      else
        let '(l', e) := eachWarning
          (errors_getMsgByType E "CHROME_WEB_SECURITY_NOT_SUPPORTED") l in
        wr cfg "browsers" (VArr l');;
        match e with Some err => throw err | None => ret tt end
  | _ => ret tt
  end.

Definition open_defaults : obj :=
  {[ "report" := VBool false;
     "onFocusTests" := VFun Noop;
     "onError" := VFun Noop;
     "onWarning" := VFun Noop;
     "onSettingsChanged" := VBool false ]}.

(** [_.pick(o, ...ks)]. *)
Definition pick (o : obj) (ks : list string) : obj :=
  filter (λ kv, kv.1 ∈ ks) o.

(** After [this._cfg = cfg2] the object is reached through either name.
    The assignment to [options.onSavedStateChanged] changes the one options
    object, which [this.options] and the [onError] given to the plugin host
    refer to as well. *)
Definition open (options : obj) : M value :=
  let options := defaults options open_defaults in
  modify (set_this (with_options (VObj options)));;
  cfg1 ← getConfig (Given options);
  root ← getThis projectRoot;
  ext (ProcessChdir root);;
  chromeWebSecurity ← rd cfg1 "chromeWebSecurity";
  (if is_false chromeWebSecurity then warnBrowsers cfg1 else ret tt);;
  pluginsFile ← rd cfg1 "pluginsFile";
  (if truthy pluginsFile then
     c ← deref cfg1;
     ext (ScaffoldPlugins (path_dirname E pluginsFile) c)
   else ret tt);;
  '(cfg2, port, warning) ← onOpen cfg1 options;
  cfgPort ← rd cfg2 "port";
  (if negb (truthy cfgPort) then
     wr cfg2 "port" port;;
     c ← deref cfg2;
     modify (set_heap (alter (λ o, extend o (config_setUrls E c)) cfg2))
   else ret tt);;
  proxyUrl ← rd cfg2 "proxyUrl";
  wr cfg2 "proxyServer" proxyUrl;;
  modify (set_this (with_cfg (Some cfg2)));;
  (if truthy warning then invoke (field options "onWarning") [warning]
   else ret VUndef);;
  let options := <["onSavedStateChanged" := VFun SaveState]> options in
  modify (set_this (with_options (VObj options)));;
  modify (set_pluginsOnError (Some options));;
  now ← gets clock;
  cfgState ← rd cfg2 "state";
  firstOpened ← (if truthy cfgState then lift (prop cfgState "firstOpened")
                 else ret VUndef);
  let stateToSave : obj :=
    if negb (truthy cfgState) || negb (truthy firstOpened)
    then <["firstOpened" := VNum now]> {[ "lastOpened" := VNum now ]}
    else {[ "lastOpened" := VNum now ]} in
  watchSettingsAndStartWebsockets options cfg2;;
  p2 ← start (scaffold cfg2);
  p3 ← start (saveState stateToSave);
  await (all [void p2; void p3]);;
  startSpecWatcher;;
  p4 ← start (checkSupportFile cfg2);
  p5 ← start (watchPluginsFile cfg2 options);
  await (all [p4; p5]);;
  isTextTerminal ← rd cfg2 "isTextTerminal";
  interactive ← rd cfg2 "experimentalInteractiveRunEvents";
  if truthy isTextTerminal || negb (truthy interactive) then ret VUndef else
  sys ← ext SystemInfo;
  c ← deref cfg2;
  let beforeRunDetails : obj :=
    {[ "config" := VObj c;
       "cypressVersion" := pkg_version E;
       "system" := VObj (pick sys ["osName"; "osVersion"]) ]} in
  ext (RunEventsExecute "before:run" c (VObj beforeRunDetails)).

Definition reset : M value :=
  modify (set_this (with_spec_browser VNull VNull));;
  a ← getThis _automation;
  match a with Some _ => ext AutomationReset | None => ret tt end;;
  srv ← getThis _server;
  match srv with Some _ => ext ServerReset | None => ret VUndef end.

(** [closePreprocessor] is [preprocessor.close] for an e2e project; for a
    component project it is [false ?? undefined], that is [false], which
    [?.()] calls all the same.  The accessor [this.server] is evaluated
    before the optional chain looks at its value. *)
Definition close : M value :=
  modify (set_this (with_spec_browser VNull VNull));;
  t ← getThis projectType;
  _ ← server;
  p1 ← start (ext ServerClose);
  p2 ← start watchers_close;
  p3 ← match t with
       | e2e => start (ext PreprocessorClose)
       | ct => throw (TypeError "closePreprocessor is not a function")
       end;
  await (all [p1; p2; p3]);;
  ext (ProcessChdir (localCwd E));;
  config ← getConfig Omitted;
  isTextTerminal ← rd config "isTextTerminal";
  interactive ← rd config "experimentalInteractiveRunEvents";
  if truthy isTextTerminal || negb (truthy interactive) then ret VUndef else
  c ← deref config;
  ext (RunEventsExecute "after:run" c VUndef).

Definition changeToUrl (url : value) : M unit :=
  _ ← server; ext (ServerChangeToUrl url).

Definition shouldCorrelatePreRequests : M bool :=
  b ← getThis browser;
  if negb (truthy b) then ret false else
  family ← lift (prop b "family");
  majorVersion ← lift (prop b "majorVersion");
  ret (is_str family "chromium"
       || (is_str family "firefox"
           && match majorVersion with VNum v => 86 <=? v | _ => false end)).

Definition setCurrentSpecAndBrowser (sp br : value) : M unit :=
  modify (set_this (with_spec_browser sp br)).

Definition getCurrentSpecAndBrowser : M (value * value) :=
  sp ← getThis spec; br ← getThis browser; ret (sp, br).

(** [browsers = []] is the default of an omitted argument. *)
Definition setBrowsers (browsers : value) : M unit :=
  c ← getConfig Omitted;
  wr c "browsers" (match browsers with VUndef => VArr [] | b => b end).

Definition getAutomation : M Automation := automation.

Definition normalizeSpecUrl (browserUrl : value) (specUrl : string) : string :=
  replaceMultipleForwardSlashes
    (join "/" [joinItem browserUrl; "#/tests"; escapeFilenameInUrl E specUrl]).

(** [path_prefix type folder root spec] is
    [path.join(type, path.relative(folder, path.resolve(root, spec)))]. *)
Definition getPrefixedPathToSpec (cfg : obj) (pathToSpec type : value)
    : result string :=
  let type := match type with VUndef => VStr "integration" | t => t end in
  let folderToUse := if is_str type "integration"
                     then field cfg "integrationFolder"
                     else field cfg "componentFolder" in
  match path_prefix E type folderToUse (field cfg "projectRoot") pathToSpec with
  | Ok p => Ok ("/" +:+ replaceBackSlashes p)
  | Throw e => Throw e
  end.

Definition getSpecUrl (absoluteSpecPath specType : value) : M string :=
  cfg ← getConfig Omitted;
  c ← deref cfg;
  if negb (truthy absoluteSpecPath) || is_str absoluteSpecPath "__all" then
    ret (normalizeSpecUrl (field c "browserUrl") "/__all")
  else
    prefixedPath ← lift (getPrefixedPathToSpec c absoluteSpecPath specType);
    ret (normalizeSpecUrl (field c "browserUrl") prefixedPath).

(** [new ProjectBase({ projectRoot, projectType })]. *)
Definition construct (root : string) (t : RunnerType) : result Project :=
  if String.eqb root ""
  then Throw (JsError "Instantiating lib/project requires a projectRoot!")
  else Ok (mkProject (path_resolve E root) t VUndef None None None
                     VNull VNull None).

(** *** What the collaborators call back *)

(** The [onChange] of the [i]-th watch fires.  The promise of the
    re-initialisation is not returned: an error of the [catch] handler
    itself goes nowhere. *)
Definition onChange (h : handler) : M unit :=
  match h with
  | PluginsFileChanged cfg options =>
      p ← start (_initPlugins cfg options);
      match p with
      | Ok _ => ret tt
      | Throw err =>
          _ ← start (invoke (field options "onError") [VObj err]); ret tt
      end
  | SettingsChanged onSettingsChanged =>
      stamp ← getThis generatedProjectIdTimestamp;
      now ← gets clock;
      match stamp with
      | Some t0 => if now - t0 <? 1000 then ret tt
                   else invoke onSettingsChanged [];; ret tt
      | None => invoke onSettingsChanged [];; ret tt
      end
  end.

Definition fileChanged (i : nat) : M unit :=
  w ← gets watched;
  match w !! i with
  | Some (_, h) => onChange h
  | None => ret tt
  end.

(** The plugin host reports an error through the [onError] it was given. *)
Definition pluginError (err : error) : M unit :=
  o ← gets pluginsOnError;
  match o with
  | Some options => _onError err options;; ret tt
  | None => ret tt
  end.

(** *** The account and project-id methods *)

Definition verifyExistence : M unit :=
  root ← getThis projectRoot;
  catch (ext (FsStat root))
        (λ _, throw (errors_get E "NO_PROJECT_FOUND_AT_PROJECT_ROOT" [VStr root])).

Definition getProjectId : M value :=
  verifyExistence;;
  root ← getThis projectRoot;
  opts ← getThis options;
  readSettings ← ext (SettingsRead root opts);
  projectId ← (if truthy readSettings then lift (prop readSettings "projectId")
               else ret VUndef);
  if truthy readSettings && truthy projectId then ret projectId else
  throw (errors_get E "NO_PROJECT_ID"
           [settings_configFile E match opts with VObj o => o | _ => ∅ end;
            VStr root]).

Definition getRuns : M value :=
  p1 ← start getProjectId;
  p2 ← start (ext UserEnsureAuthToken);
  l ← await (all [p1; p2]);
  ext (ApiGetProjectRuns (nth 0 l VUndef) (nth 1 l VUndef)).

Definition getRecordKeys : M value :=
  p1 ← start getProjectId;
  p2 ← start (ext UserEnsureAuthToken);
  l ← await (all [p1; p2]);
  ext (ApiGetProjectRecordKeys (nth 0 l VUndef) (nth 1 l VUndef)).

Definition requestAccess (projectId : value) : M value :=
  authToken ← ext UserEnsureAuthToken;
  ext (ApiRequestAccess projectId authToken).

(** *** Project-status reconciliation (static) *)

Definition _mergeDetails (clientProject project : obj) : obj :=
  extend (extend clientProject project) {[ "state" := VStr "VALID" ]}.

Definition _mergeState (clientProject : obj) (state : string) : obj :=
  extend clientProject {[ "state" := VStr state ]}.

Definition _getProject (clientProject : obj) (authToken : value) : M obj :=
  catch (project ← ext (ApiGetProject (field clientProject "id") authToken);
         ret (_mergeDetails clientProject project))
        (λ err,
           let statusCode := field err "statusCode" in
           if is_num statusCode 404 then ret (_mergeState clientProject "INVALID")
           else if is_num statusCode 403
                then ret (_mergeState clientProject "UNAUTHORIZED")
                else throw err).

(** [_.keyBy(projects, 'id')]: a later project replaces an earlier one of
    the same key. *)
Definition keyBy (projects : list obj) (k : string) : gmap string obj :=
  foldl (λ acc p, <[toString (field p k) := p]> acc) ∅ projects.

(** The function [getProjectStatuses] maps over the client projects. *)
Definition projectStatus (projectsIndex : gmap string obj) (authToken : value)
    (clientProject : obj) : M obj :=
  if negb (truthy (field clientProject "id")) then
    ret (_mergeState clientProject "VALID")
  else
    match projectsIndex !! toString (field clientProject "id") with
    | Some project => ret (_mergeDetails clientProject project)
    | None => _getProject clientProject authToken
    end.

Definition getProjectStatuses (clientProjects : list obj) : M (list obj) :=
  authToken ← ext UserEnsureAuthToken;
  listed ← ext (ApiGetProjects authToken);
  let projects := default [] listed in
  let projectsIndex := keyBy projects "id" in
  ps ← startEach (projectStatus projectsIndex authToken) clientProjects;
  await (all ps).

Definition getProjectStatus (clientProject : obj) : M obj :=
  if negb (truthy (field clientProject "id")) then
    ret (_mergeState clientProject "VALID")
  else
    authToken ← ext UserEnsureAuthToken;
    _getProject clientProject authToken.

End ProjectBase.

(* ===================================================================== *)
(** ** Running several calls, and the operations of the state machine *)
(* ===================================================================== *)

(** The outcomes of calling [m] [n] times in a row, and the state after. *)
Fixpoint times {A} (n : nat) (m : M A) (s : St) : list (result A) * St :=
  match n with
  | O => ([], s)
  | S k => let '(r, s1) := m s in
           let '(rs, s2) := times k m s1 in (r :: rs, s2)
  end.

Definition returned {A} (r : result A) : Prop :=
  match r with Ok _ => True | Throw _ => False end.

(** What can happen to an instance: a call of one of its methods, or a
    collaborator calling back. *)
Inductive operation :=
| OpOpen (options : obj)
| OpClose
| OpReset
| OpGetConfig (arg : optarg)
| OpSaveState (stateChanges : obj)
| OpRemoveScaffoldedFiles
| OpSetBrowsers (browsers : value)
| OpSetCurrentSpecAndBrowser (sp br : value)
| OpGetSpecUrl (absoluteSpecPath specType : value)
| OpChangeToUrl (url : value)
| OpGetRuns
| OpGetRecordKeys
| OpGetProjectId
| OpRequestAccess (projectId : value)
| OpFileChanged (i : nat)
| OpPluginError (err : error).

Definition run (E : Env) (o : operation) : M unit :=
  match o with
  | OpOpen options => open E options;; ret tt
  | OpClose => close E;; ret tt
  | OpReset => reset E;; ret tt
  | OpGetConfig arg => getConfig E arg;; ret tt
  | OpSaveState stateChanges => saveState E stateChanges;; ret tt
  | OpRemoveScaffoldedFiles => removeScaffoldedFiles E;; ret tt
  | OpSetBrowsers browsers => setBrowsers E browsers
  | OpSetCurrentSpecAndBrowser sp br => setCurrentSpecAndBrowser sp br
  | OpGetSpecUrl p t => getSpecUrl E p t;; ret tt
  | OpChangeToUrl url => changeToUrl E url
  | OpGetRuns => getRuns E;; ret tt
  | OpGetRecordKeys => getRecordKeys E;; ret tt
  | OpGetProjectId => getProjectId E;; ret tt
  | OpRequestAccess projectId => requestAccess E projectId;; ret tt
  | OpFileChanged i => fileChanged E i
  | OpPluginError err => pluginError E err
  end.

(** The state a new instance starts in. *)
Definition initial (p : Project) : St :=
  mkSt p [] [] ∅ 0 [] None.

(** Events by kind. *)
Definition isRelease (e : event) : bool :=
  match e with
  | Ev ServerClose | Ev WatchersClose | Ev PreprocessorClose => true
  | _ => false
  end.

Definition isBrowsersClose (e : event) : bool :=
  match e with Ev BrowsersClose => true | _ => false end.

Definition isPluginsInit (e : event) : bool :=
  match e with Ev (PluginsInit _ _ _ _) => true | _ => false end.

Definition isProjectLookup (e : event) : bool :=
  match e with Ev (ApiGetProject _ _) => true | _ => false end.

(** The string [s] ends in the character [c]. *)
Fixpoint endsIn (c : ascii) (s : string) : bool :=
  match s with
  | EmptyString => false
  | String x EmptyString => Ascii.eqb x c
  | String _ t => endsIn c t
  end.

(* ===================================================================== *)
(** ** A concrete environment *)
(* ===================================================================== *)

(** Modelled from the spec: ./util/escape_filename is not among the sources.
    The spec has it percent-escape the characters of a file name that are
    unsafe in a URL fragment; this model escapes [%], [&] and [?]. *)
Fixpoint escapeFilename (s : string) : string :=
  match s with
  | EmptyString => EmptyString
  | String c t =>
      (if Ascii.eqb c "%"%char then "%25"
       else if Ascii.eqb c "&"%char then "%26"
       else if Ascii.eqb c "?"%char then "%3F"
       else String c EmptyString) +:+ escapeFilename t
  end.

Definition sampleConfig : obj :=
  {[ "projectRoot" := VStr "/proj";
     "integrationFolder" := VStr "/proj/cypress/integration";
     "componentFolder" := VStr "/proj/cypress/component";
     "supportFolder" := VStr "/proj/cypress/support";
     "fixturesFolder" := VStr "/proj/cypress/fixtures";
     "pluginsFile" := VStr "/proj/cypress/plugins/index.js";
     "browserUrl" := VStr "http://localhost:8888/__/";
     "proxyUrl" := VStr "http://localhost:8888";
     "port" := VNum 8888;
     "viewportHeight" := VNum 660;
     "viewportWidth" := VNum 1000;
     "rawJson" := VObj {[ "projectId" := VStr "abc123" ]};
     "resolved" := VObj ∅ ]}.

(** Every collaborator succeeds. *)
Definition quietAnswer (A : Type) (tr : list event) (c : call A) : result A :=
  match c in call T return result T with
  | ConfigGet _ _ => Ok sampleConfig
  | ScaffoldIsNewProject _ => Ok (VBool false)
  | SavedStateCreate _ _ => Ok tt
  | ProcessChdir _ => Ok tt
  | ProcessEnv _ => Ok VUndef
  | ScaffoldPlugins _ _ => Ok tt
  | PluginsInit _ _ _ _ => Ok VUndef
  | SpecsFind _ => Ok []
  | DevServerStart _ _ => Ok (VObj {[ "port" := VNum 3000 ]})
  | StoreSpecFiles _ => Ok tt
  | SpecsStoreWatch _ => Ok tt
  | ServerOpen _ _ => Ok (VNum 8888, VUndef)
  | ServerStartWebsockets _ _ => Ok tt
  | ServerClose => Ok tt
  | ServerReset => Ok VUndef
  | ServerChangeToUrl _ => Ok tt
  | AutomationReset => Ok tt
  | WatchersWatch _ => Ok tt
  | WatchersWatchTree _ => Ok tt
  | WatchersClose => Ok tt
  | PreprocessorClose => Ok tt
  | BrowsersClose => Ok tt
  | ReporterLoad _ _ => Ok tt
  | ReporterSearchPaths _ _ => Ok (VArr [])
  | ReporterCreate _ _ _ => Ok (VObj ∅)
  | ScaffoldSupport _ _ => Ok tt
  | ScaffoldIntegration _ _ => Ok tt
  | ScaffoldFixture _ _ => Ok tt
  | ScaffoldRemoveIntegration _ _ => Ok VUndef
  | FsPathExists _ => Ok true
  | SystemInfo => Ok ∅
  | RunEventsExecute _ _ _ => Ok VUndef
  | Callback _ _ => Ok VUndef
  | UserEnsureAuthToken => Ok (VStr "auth-token-123")
  | ApiGetProjects _ => Ok (Some [])
  | ApiGetProject _ _ => Ok ∅
  | ApiGetProjectRuns _ _ => Ok (VArr [])
  | ApiGetProjectRecordKeys _ _ => Ok (VArr [])
  | ApiRequestAccess _ _ => Ok VUndef
  | ApiGetOrgs _ => Ok (VArr [])
  | ApiCreateProject _ _ _ => Ok ∅
  | CommitInfoGetRemoteOrigin _ => Ok VUndef
  | FsStat _ => Ok tt
  | SettingsRead _ _ => Ok (VObj {[ "projectId" := VStr "abc123" ]})
  | SettingsWrite _ _ => Ok tt
  end.

(** The helpers leave the config as it is; [config.updateWithPluginValues]
    lets the plugin values override it, the internal [state] apart. *)
Definition envWith (a : ∀ A : Type, list event → call A → result A) : Env :=
  {| answer := a;
     config_allowed := λ c, c;
     config_updateWithPluginValues :=
       λ c overrides,
         Ok match overrides with
            | VObj o => extend c (delete "state" o)
            | _ => c
            end;
     config_setUrls := λ _, ∅;
     errors_get := λ type args, {[ "name" := VStr "CypressError"; "type" := VStr type;
                                   "args" := VArr args ]};
     errors_getMsgByType := λ type _, VStr type;
     settings_pathToConfigFile := λ root _, VStr (root +:+ "/cypress.json");
     settings_pathToCypressEnvJson := λ root, VStr (root +:+ "/cypress.env.json");
     settings_configFile := λ _, VStr "cypress.json";
     path_dirname := λ p, p;
     path_resolve := λ p, p;
     path_prefix := λ type _ _ spec, Ok (toString type +:+ "/" +:+ toString spec);
     escapeFilenameInUrl := escapeFilename;
     pkg_version := VStr "8.0.0";
     localCwd := "/" |}.

Definition quietEnv : Env := envWith quietAnswer.

Definition pluginsError : error :=
  {[ "name" := VStr "Error"; "message" := VStr "The plugins file threw" ]}.

(** [plugins.init] succeeds the first time and is rejected from then on. *)
Definition reinitFails : Env :=
  envWith (λ A tr c,
    match c in call T return result T → result T with
    | PluginsInit _ _ _ _ =>
        λ r, if existsb isPluginsInit tr then Throw pluginsError else r
    | _ => λ r, r
    end (quietAnswer A tr c)).

(** The remote API answers a project lookup with the status in the id. *)
Definition statusError (code : Z) : error :=
  {[ "name" := VStr "StatusCodeError"; "statusCode" := VNum code ]}.

Definition remoteListing : list obj :=
  [ {[ "id" := VStr "abc123"; "name" := VStr "remote name";
       "orgName" := VStr "org" ]} ].

Definition apiEnv : Env :=
  envWith (λ A tr c,
    match c in call T return result T → result T with
    | ApiGetProjects _ => λ _, Ok (Some remoteListing)
    | ApiGetProject (VStr "gone") _ => λ _, Throw (statusError 404)
    | ApiGetProject (VStr "hidden") _ => λ _, Throw (statusError 403)
    | ApiGetProject (VStr "broken") _ => λ _, Throw (statusError 500)
    | _ => λ r, r
    end (quietAnswer A tr c)).

Definition e2eProject : Project :=
  mkProject "/proj" e2e VUndef None None None VNull VNull None.

Definition ctProject : Project :=
  mkProject "/proj" ct VUndef None None None VNull VNull None.

Definition callerOptions : obj :=
  {[ "onError" := VFun (Extern "onError");
     "onWarning" := VFun (Extern "onWarning") ]}.

(** The state after a successful [open] of a new e2e instance. *)
Definition openedState : St := (open quietEnv callerOptions (initial e2eProject)).2.

(** The options [open] has stored by the time it watches the plugins file. *)
Definition storedOptions : obj :=
  <["onSavedStateChanged" := VFun SaveState]> (defaults callerOptions open_defaults).

(** The same with a plugins file that is broken at the next change. *)
Definition watchingState : St :=
  (open reinitFails callerOptions (initial e2eProject)).2.

(** A first open at time 1000 and the same instance opened again at 2000. *)
Definition firstOpen : St := set_clock 1000 (initial e2eProject).
Definition secondOpen : St :=
  set_clock 2000 (open quietEnv callerOptions firstOpen).2.

(** A component project whose config has been resolved. *)
Definition ctResolved : St := (getConfig quietEnv Omitted (initial ctProject)).2.

Definition clientProjects : list obj :=
  [ {[ "path" := VStr "/a" ]};
    {[ "path" := VStr "/b"; "id" := VStr "abc123" ]};
    {[ "path" := VStr "/c"; "id" := VStr "gone" ]};
    {[ "path" := VStr "/d"; "id" := VStr "hidden" ]} ].

(* ===================================================================== *)
(** ** Notions the properties are stated with *)
(* ===================================================================== *)

(** What [open] leaves alone apart from saving the state: the persisted
    states, the clock, and which project the instance is for. *)
Definition world (s0 s : St) : Prop :=
  persisted s = persisted s0 ∧ clock s = clock s0
  ∧ projectRoot (this s) = projectRoot (this s0)
  ∧ projectType (this s) = projectType (this s0).

(** The config helpers do not touch the [state] of a config: the plugin
    values are merged over the other properties, and the derived URLs are
    URL properties. *)
Definition keepsState (E : Env) : Prop :=
  (∀ c overrides c', config_updateWithPluginValues E c overrides = Ok c' →
                     field c' "state" = field c "state")
  ∧ (∀ c, config_setUrls E c !! "state" = None).

(** The calls made since [s0] all satisfy [P]. *)
Definition since (s0 : St) (P : event → bool) (x : St) : Prop :=
  ∃ evs, trace x = trace s0 ++ evs ∧ forallb P evs = true.

Definition notBrowsersClose (e : event) : bool := negb (isBrowsersClose e).

(** The state [s] after the collaborator calls [evs]. *)
Definition emit (evs : list event) (s : St) : St :=
  set_trace (λ t, t ++ evs) s.

(** Every run of [m] keeps [Q]. *)
Definition preserves {A} (Q : St → Prop) (m : M A) : Prop :=
  ∀ s, Q s → Q (m s).2.

(** The operations [ops] one after the other, whatever they yield. *)
Definition runAll (E : Env) (ops : list operation) (s : St) : St :=
  foldl (λ s o, (run E o s).2) s ops.

Definition isOpen (o : operation) : Prop :=
  match o with OpOpen _ => True | _ => False end.

(** The object at [l] has [v] as its [state]. *)
Definition carries (l : loc) (v : value) (s : St) : Prop :=
  ∃ o, heap s !! l = Some o ∧ field o "state" = v.

(** The state a config enters [open] with: the one the stored config has,
    or the persisted one that [getConfig] loads. *)
Definition enteringState (s : St) : value :=
  match _cfg (this s) with
  | Some c => field (default ∅ (heap s !! c)) "state"
  | None => VObj (default ∅ (persisted s !! projectRoot (this s)))
  end.

(** The persisted state of the project of the instance. *)
Definition persistedState (s : St) : obj :=
  default ∅ (persisted s !! projectRoot (this s)).

(** What the status reconciliation has to settle a client project to, with
    the project lookups [evs] it may make for it, when [tr] is the history
    at that moment: without an id the project is [VALID] and nothing is
    looked up; with an id that the remote listing has, it is merged with the
    remote record and [VALID]; otherwise it is looked up on its own, and a
    404 makes it [INVALID], a 403 [UNAUTHORIZED], and any other failure is
    passed on as it is. *)
Inductive reconciled (E : Env) (index : gmap string obj) (authToken : value)
    (tr : list event) (clientProject : obj)
    : list event → result obj → Prop :=
| NoId :
    truthy (field clientProject "id") = false →
    reconciled E index authToken tr clientProject []
      (Ok (<["state" := VStr "VALID"]> clientProject))
| Listed (project : obj) :
    truthy (field clientProject "id") = true →
    index !! toString (field clientProject "id") = Some project →
    reconciled E index authToken tr clientProject []
      (Ok (<["state" := VStr "VALID"]> (project ∪ clientProject)))
| LookedUp (project : obj) :
    truthy (field clientProject "id") = true →
    index !! toString (field clientProject "id") = None →
    answer E obj tr (ApiGetProject (field clientProject "id") authToken)
      = Ok project →
    reconciled E index authToken tr clientProject
      [Ev (ApiGetProject (field clientProject "id") authToken)]
      (Ok (<["state" := VStr "VALID"]> (project ∪ clientProject)))
| Status404 (err : error) :
    truthy (field clientProject "id") = true →
    index !! toString (field clientProject "id") = None →
    answer E obj tr (ApiGetProject (field clientProject "id") authToken)
      = Throw err →
    field err "statusCode" = VNum 404 →
    reconciled E index authToken tr clientProject
      [Ev (ApiGetProject (field clientProject "id") authToken)]
      (Ok (<["state" := VStr "INVALID"]> clientProject))
| Status403 (err : error) :
    truthy (field clientProject "id") = true →
    index !! toString (field clientProject "id") = None →
    answer E obj tr (ApiGetProject (field clientProject "id") authToken)
      = Throw err →
    field err "statusCode" = VNum 403 →
    reconciled E index authToken tr clientProject
      [Ev (ApiGetProject (field clientProject "id") authToken)]
      (Ok (<["state" := VStr "UNAUTHORIZED"]> clientProject))
| Propagated (err : error) :
    truthy (field clientProject "id") = true →
    index !! toString (field clientProject "id") = None →
    answer E obj tr (ApiGetProject (field clientProject "id") authToken)
      = Throw err →
    field err "statusCode" ≠ VNum 404 →
    field err "statusCode" ≠ VNum 403 →
    reconciled E index authToken tr clientProject
      [Ev (ApiGetProject (field clientProject "id") authToken)]
      (Throw err).

(* ===================================================================== *)
(** * Properties *)
(* ===================================================================== *)

(** ** Running the monad *)

Ltac run :=
  cbv beta iota delta
    [mbind M_bind bind mret M_ret ret throw lift gets getThis modify catch
     start await ensureProp server cfg automation deref rd wr].

Tactic Notation "run" "in" hyp(H) :=
  cbv beta iota delta
    [mbind M_bind bind mret M_ret ret throw lift gets getThis modify catch
     start await ensureProp server cfg automation deref rd wr] in H.

Ltac case_answer :=
  match goal with
  | |- context [answer ?E ?A ?t ?c] => destruct (answer E A t c) eqn:?
  end.

Ltac case_field :=
  match goal with
  | |- context [match ?f (this ?s) with _ => _ end] => destruct (f (this s)) eqn:?
  end.

Lemma run_bind {A B} (m : M A) (k : A → M B) (s : St) :
  (m ≫= k) s = match m s with
               | (Ok a, s') => k a s'
               | (Throw e, s') => (Throw e, s')
               end.
Proof. reflexivity. Qed.

Lemma run_start {A} (m : M A) (s : St) : start m s = (Ok (m s).1, (m s).2).
Proof. unfold start. destruct (m s); reflexivity. Qed.

Lemma bind_assoc {A B C} (m : M A) (k1 : A → M B) (k2 : B → M C) (s : St) :
  ((m ≫= k1) ≫= k2) s = (m ≫= λ a, k1 a ≫= k2) s.
Proof. rewrite !run_bind. destruct (m s) as [[a|e] s1]; reflexivity. Qed.

Lemma bind_getThis {A B} (f : Project → A) (k : A → M B) (s : St) :
  (getThis f ≫= k) s = k (f (this s)) s.
Proof. reflexivity. Qed.

Lemma bind_gets {A B} (f : St → A) (k : A → M B) (s : St) :
  (gets f ≫= k) s = k (f s) s.
Proof. reflexivity. Qed.

Lemma bind_ret {A B} (a : A) (k : A → M B) (s : St) : (ret a ≫= k) s = k a s.
Proof. reflexivity. Qed.

Lemma bind_modify {B} (f : St → St) (k : unit → M B) (s : St) :
  (modify f ≫= k) s = k tt (f s).
Proof. reflexivity. Qed.

Lemma bind_alloc {B} (o : obj) (k : loc → M B) (s : St) :
  (alloc o ≫= k) s = k (length (heap s)) (set_heap (λ h, h ++ [o]) s).
Proof. reflexivity. Qed.

Lemma bind_deref {B} (l : loc) (k : obj → M B) (s : St) :
  (deref l ≫= k) s = k (default ∅ (heap s !! l)) s.
Proof. reflexivity. Qed.

Lemma bind_rd {B} (l : loc) (key : string) (k : value → M B) (s : St) :
  (rd l key ≫= k) s = k (field (default ∅ (heap s !! l)) key) s.
Proof. reflexivity. Qed.

Lemma bind_wr {B} (l : loc) (key : string) (v : value) (k : unit → M B) (s : St) :
  (wr l key v ≫= k) s
  = k tt (set_heap (alter (λ o, <[key := v]> o) l) s).
Proof. reflexivity. Qed.

Lemma bind_ext {A B} (E : Env) (c : call A) (k : A → M B) (s : St) :
  (ext E c ≫= k) s
  = match answer E A (trace s) c with
    | Ok a => k a (emit [Ev c] s)
    | Throw e => (Throw e, emit [Ev c] s)
    end.
Proof.
  rewrite run_bind. unfold ext, emit.
  destruct (answer E A (trace s) c); reflexivity.
Qed.

Lemma bind_start {A B} (m : M A) (k : result A → M B) (s : St) :
  (start m ≫= k) s = k (m s).1 (m s).2.
Proof. rewrite run_bind, run_start. reflexivity. Qed.

Lemma bind_lift_Ok {A B} (a : A) (k : A → M B) (s : St) :
  (lift (Ok a) ≫= k) s = k a s.
Proof. reflexivity. Qed.

(** One step of a run that is known to have returned: [H] is
    [(m ≫= k) s = (Ok _, _)] for a primitive [m]. *)
Ltac step H :=
  first
    [ rewrite bind_assoc in H
    | rewrite bind_getThis in H
    | rewrite bind_gets in H
    | rewrite bind_ret in H
    | rewrite bind_modify in H
    | rewrite bind_alloc in H
    | rewrite bind_deref in H
    | rewrite bind_rd in H
    | rewrite bind_wr in H
    | rewrite bind_lift_Ok in H
    | rewrite bind_start in H
    | rewrite bind_ext in H;
      match type of H with
      | match answer ?E ?A ?t ?c with _ => _ end = _ =>
          let a := fresh "a" in let Ha := fresh "Ha" in
          destruct (answer E A t c) as [a|?] eqn:Ha; [|discriminate H]
      end ];
  cbv beta zeta in H.

(** The same for a call of a function of the class. *)
Ltac call H a s1 Hm :=
  rewrite run_bind in H;
  match type of H with
  | match ?m ?s with _ => _ end = _ =>
      destruct (m s) as [[a|?] s1] eqn:Hm; [|discriminate H]
  end.

(** The same for an effect-free computation that may throw. *)
Ltac step_lift H :=
  match type of H with
  | (lift ?r ≫= _) _ = _ =>
      let x := fresh "x" in let Hx := fresh "Hx" in
      destruct r as [x|?] eqn:Hx;
      [rewrite bind_lift_Ok in H; cbv beta zeta in H | discriminate H]
  end.

(** ** Objects and events *)

Lemma field_insert_ne (o : obj) (k k' : string) (x : value) :
  k ≠ k' → field (<[k := x]> o) k' = field o k'.
Proof. intros Hne. unfold field. rewrite lookup_insert_ne; auto. Qed.

Lemma field_insert_eq (o : obj) (k : string) (x : value) :
  field (<[k := x]> o) k = x.
Proof. unfold field. rewrite lookup_insert_eq. reflexivity. Qed.

Lemma field_extend_None (o u : obj) (k : string) :
  u !! k = None → field (extend o u) k = field o k.
Proof. intros Hu. unfold field, extend. rewrite lookup_union_r; auto. Qed.

Lemma field_defaults (o d : obj) (k : string) :
  field (defaults o d) k
  = match o !! k with
    | Some VUndef | None => field d k
    | Some v => v
    end.
Proof.
  unfold field, defaults. rewrite lookup_merge.
  destruct (o !! k) as [[]|], (d !! k); reflexivity.
Qed.

Lemma is_num_spec (v : value) (n : Z) : is_num v n = true ↔ v = VNum n.
Proof.
  destruct v; cbn; try (split; [discriminate|congruence]).
  rewrite Z.eqb_eq. split; congruence.
Qed.

Lemma emit_nil (s : St) : emit [] s = s.
Proof. destruct s. unfold emit, set_trace. cbn. rewrite app_nil_r. reflexivity. Qed.

Lemma emit_emit (a b : list event) (s : St) : emit b (emit a s) = emit (a ++ b) s.
Proof. unfold emit, set_trace. cbn. rewrite app_assoc. reflexivity. Qed.

Lemma all_pair_Ok {A} (p q : result A) (l : list A) :
  all [p; q] = Ok l → ∃ a b, p = Ok a ∧ q = Ok b.
Proof. destruct p, q; cbn; intros; try discriminate; eauto. Qed.

Lemma void_Ok {A} (p : result A) (u : unit) : void p = Ok u → ∃ a, p = Ok a.
Proof. destruct p; cbn; intros; try discriminate; eauto. Qed.

(** ** Frame rules: what a run keeps *)

Lemma preserves_bind {A B} (Q : St → Prop) (m : M A) (k : A → M B) :
  preserves Q m → (∀ a, preserves Q (k a)) → preserves Q (m ≫= k).
Proof.
  intros Hm Hk s Hs. specialize (Hm s Hs). rewrite run_bind.
  destruct (m s) as [[a|e] s1]; cbn in *; [apply Hk|]; assumption.
Qed.

Lemma preserves_start {A} (Q : St → Prop) (m : M A) :
  preserves Q m → preserves Q (start m).
Proof. intros Hm s Hs. rewrite run_start. apply Hm, Hs. Qed.

Lemma preserves_catch {A} (Q : St → Prop) (m : M A) (h : error → M A) :
  preserves Q m → (∀ e, preserves Q (h e)) → preserves Q (catch m h).
Proof.
  intros Hm Hh s Hs. specialize (Hm s Hs). unfold catch.
  destruct (m s) as [[a|e] s1]; cbn in *; [|apply Hh]; assumption.
Qed.

Lemma preserves_run {A} (Q : St → Prop) (m : M A) (s : St) r s' :
  preserves Q m → m s = (r, s') → Q s → Q s'.
Proof. intros Hm Hr Hs. specialize (Hm s Hs). rewrite Hr in Hm. exact Hm. Qed.

Lemma preserves_and {A} (P Q : St → Prop) (m : M A) :
  preserves P m → preserves Q m → preserves (λ s, P s ∧ Q s) m.
Proof. intros HP HQ s [Hp Hq]. split; [apply HP|apply HQ]; assumption. Qed.

Lemma world_refl (s : St) : world s s.
Proof. repeat split. Qed.

Lemma world_trans (a b c : St) : world a b → world b c → world a c.
Proof. unfold world. intros (?&?&?&?) (?&?&?&?). repeat split; congruence. Qed.

(** [carries] depends on the heap only, and on the object's [state]. *)
Lemma carries_heap (l : loc) (v : value) (s s' : St) :
  heap s' = heap s → carries l v s → carries l v s'.
Proof. intros Hh (o & Ho & Hv). exists o. rewrite Hh. auto. Qed.

Lemma carries_alloc (l : loc) (v : value) (o : obj) (s s' : St) :
  heap s' = heap s ++ [o] → carries l v s → carries l v s'.
Proof.
  intros Hh (o' & Ho & Hv). exists o'. rewrite Hh. split; [|exact Hv].
  apply lookup_app_l_Some, Ho.
Qed.

Lemma carries_new (v : value) (o : obj) (s s' : St) :
  heap s' = heap s ++ [o] → field o "state" = v →
  carries (length (heap s)) v s'.
Proof.
  intros Hh Hv. exists o. rewrite Hh. split; [|exact Hv].
  rewrite lookup_app_r, Nat.sub_diag by lia. reflexivity.
Qed.

Lemma carries_read (l : loc) (v : value) (s : St) :
  (l < length (heap s))%nat →
  field (default ∅ (heap s !! l)) "state" = v →
  carries l v s.
Proof.
  intros Hl Hv. destruct (lookup_lt_is_Some_2 (heap s) l Hl) as [o Ho].
  exists o. rewrite Ho in Hv. auto.
Qed.

Lemma carries_alter (l l' : loc) (v : value) (f : obj → obj) (s s' : St) :
  heap s' = alter f l' (heap s) →
  (∀ o, field (f o) "state" = field o "state") →
  carries l v s → carries l v s'.
Proof.
  intros Hh Hf (o & Ho & Hv). unfold carries. rewrite Hh.
  destruct (decide (l' = l)) as [Heq|Hne].
  - subst l'. exists (f o). rewrite list_lookup_alter_eq.
    split; [rewrite Ho; reflexivity|].
    rewrite Hf. exact Hv.
  - exists o. rewrite list_lookup_alter_ne; auto.
Qed.

Lemma valid_alter (h : list obj) (l l' : loc) (f : obj → obj) :
  is_Some (h !! l) → is_Some (alter f l' h !! l).
Proof.
  intros [o Ho]. destruct (decide (l' = l)) as [Heq|Hne].
  - subst l'. rewrite list_lookup_alter_eq, Ho. eexists; reflexivity.
  - rewrite list_lookup_alter_ne; eauto.
Qed.

Lemma valid_app (h h' : list obj) (l : loc) :
  is_Some (h !! l) → is_Some ((h ++ h') !! l).
Proof. intros [o Ho]. exists o. apply lookup_app_l_Some, Ho. Qed.

Lemma since_refl (s0 : St) (P : event → bool) : since s0 P s0.
Proof. exists []. rewrite app_nil_r. split; reflexivity. Qed.

Lemma since_same (s0 x x' : St) (P : event → bool) :
  trace x' = trace x → since s0 P x → since s0 P x'.
Proof. intros Ht (evs & He & HP). exists evs. rewrite Ht. auto. Qed.

Lemma since_emit (s0 x x' : St) (P : event → bool) (e : event) :
  trace x' = trace x ++ [e] → P e = true → since s0 P x → since s0 P x'.
Proof.
  intros Ht Pe (evs & He & HP). exists (evs ++ [e]).
  rewrite Ht, He, app_assoc. split; [reflexivity|].
  rewrite forallb_app, HP. cbn. rewrite Pe. reflexivity.
Qed.

Create HintDb frame.

#[global] Hint Resolve valid_alter valid_app : frame.

#[global] Hint Extern 1 (carries _ _ _) =>
  first [ eapply carries_heap; [reflexivity | eassumption]
        | eapply carries_alloc; [reflexivity | eassumption]
        | eapply carries_alter;
          [ reflexivity
          | intros; first [ apply field_insert_ne; discriminate
                          | apply field_extend_None; solve [auto] ]
          | eassumption ] ] : frame.

#[global] Hint Extern 1 (since _ _ _) =>
  first [ eapply since_same; [reflexivity | eassumption]
        | eapply since_emit; [reflexivity | reflexivity | eassumption] ] : frame.

Ltac head_of t := lazymatch t with ?f _ => head_of f | _ => t end.

Ltac leaf := unfold preserves, world; intros ? ?; cbn in *; eauto with frame.

(** [preserves Q m] by the structure of [m]: the frame rules at a bind, a
    promise, a handler or a case distinction, the definition of [Q] at a
    primitive, and the body of a function of the class at its call. *)
Ltac frame_step :=
  lazymatch goal with
  | |- preserves _ (mbind _ _) => apply preserves_bind; [ | intros]
  | |- preserves _ (start _) => apply preserves_start
  | |- preserves _ (catch _ _) => apply preserves_catch; [ | intros]
  | |- preserves _ (let _ := _ in _) => cbv zeta
  | |- preserves _ (match ?x with _ => _ end) => destruct x
  | |- preserves _ (ret _) => leaf
  | |- preserves _ (throw _) => leaf
  | |- preserves _ (lift _) => leaf
  | |- preserves _ (await _) => leaf
  | |- preserves _ (gets _) => leaf
  | |- preserves _ (getThis _) => leaf
  | |- preserves _ (modify _) => leaf
  | |- preserves _ (ext _ _) => leaf
  | |- preserves _ (alloc _) => leaf
  | |- preserves _ ?m =>
      first [ solve [eauto with frame]
            | let h := head_of m in unfold h ]
  end.

Ltac frame := repeat frame_step.

Lemma quietEnv_keepsState : keepsState quietEnv.
Proof.
  split.
  - intros c overrides c' H. cbn in H. injection H as <-.
    destruct overrides; try reflexivity.
    apply field_extend_None, lookup_delete_eq.
  - intros c. apply lookup_empty.
Qed.

(** A run that returned, split into what it returned and the state after. *)
Lemma returned_as {A} (m : M A) (s : St) (a : A) :
  (m s).1 = Ok a → m s = (Ok a, (m s).2).
Proof. intros H. apply injective_projections; [exact H|reflexivity]. Qed.

Lemma thrown_as {A} (m : M A) (s : St) (e : error) :
  (m s).1 = Throw e → m s = (Throw e, (m s).2).
Proof. intros H. apply injective_projections; [exact H|reflexivity]. Qed.

(* ===================================================================== *)
(** ** Project-status reconciliation *)
(* ===================================================================== *)

Lemma mergeState_insert (cp : obj) (st : string) :
  _mergeState cp st = <["state" := VStr st]> cp.
Proof. unfold _mergeState, extend. rewrite insert_union_singleton_l. reflexivity. Qed.

Lemma mergeDetails_insert (cp p : obj) :
  _mergeDetails cp p = <["state" := VStr "VALID"]> (p ∪ cp).
Proof. unfold _mergeDetails, extend. rewrite insert_union_singleton_l. reflexivity. Qed.

Lemma startEach_cons {A B} (f : A → M B) (x : A) (t : list A) (s : St) :
  startEach f (x :: t) s
  = match startEach f t (f x s).2 with
    | (Ok ps, s2) => (Ok ((f x s).1 :: ps), s2)
    | (Throw e, s2) => (Throw e, s2)
    end.
Proof.
  cbn [startEach]. run. destruct (f x s) as [r s1]. cbn.
  destruct (startEach f t s1) as [[ps|e] s2]; reflexivity.
Qed.

Section Status.
Context (E : Env).

Lemma getProject_reconciled (index : gmap string obj) (authToken : value)
    (cp : obj) (s : St) :
  truthy (field cp "id") = true →
  index !! toString (field cp "id") = None →
  ∃ evs r, _getProject E cp authToken s = (r, emit evs s)
           ∧ reconciled E index authToken (trace s) cp evs r.
Proof.
  intros Hid Hidx. unfold _getProject, ext. run.
  destruct (answer E obj (trace s) (ApiGetProject (field cp "id") authToken))
    as [p|err] eqn:Ha.
  - eexists _, _. split; [reflexivity|].
    rewrite mergeDetails_insert. eapply LookedUp; eassumption.
  - destruct (is_num (field err "statusCode") 404) eqn:H404.
    { eexists _, _. split; [reflexivity|]. rewrite mergeState_insert.
      eapply Status404; try eassumption. apply is_num_spec, H404. }
    destruct (is_num (field err "statusCode") 403) eqn:H403.
    { eexists _, _. split; [reflexivity|]. rewrite mergeState_insert.
      eapply Status403; try eassumption. apply is_num_spec, H403. }
    eexists _, _. split; [reflexivity|].
    eapply Propagated; try eassumption.
    + intros Hx. apply is_num_spec in Hx. congruence.
    + intros Hx. apply is_num_spec in Hx. congruence.
Qed.

Lemma projectStatus_reconciled (index : gmap string obj) (authToken : value)
    (cp : obj) (s : St) :
  ∃ evs r, projectStatus E index authToken cp s = (r, emit evs s)
           ∧ reconciled E index authToken (trace s) cp evs r.
Proof.
  unfold projectStatus.
  destruct (truthy (field cp "id")) eqn:Hid; cbn [negb].
  - destruct (index !! toString (field cp "id")) as [p|] eqn:Hidx.
    + exists [], (Ok (_mergeDetails cp p)). rewrite emit_nil. split; [reflexivity|].
      rewrite mergeDetails_insert. apply Listed; assumption.
    + apply getProject_reconciled; assumption.
  - exists [], (Ok (_mergeState cp "VALID")). rewrite emit_nil. split; [reflexivity|].
    rewrite mergeState_insert. apply NoId; assumption.
Qed.

Lemma startEach_reconciled (index : gmap string obj) (authToken : value)
    (cps : list obj) : ∀ s,
  ∃ outs : list (list event * result obj),
    startEach (projectStatus E index authToken) cps s
      = (Ok (map snd outs), emit (concat (map fst outs)) s)
    ∧ Forall2 (λ cp out, ∃ tr, reconciled E index authToken tr cp out.1 out.2)
              cps outs.
Proof.
  induction cps as [|cp cps IH]; intros s.
  - exists []. cbn. rewrite emit_nil. split; [reflexivity|constructor].
  - destruct (projectStatus_reconciled index authToken cp s) as (evs & r & Hr & Hrec).
    destruct (IH (emit evs s)) as (outs & Hrest & Hall).
    exists ((evs, r) :: outs). split.
    + rewrite startEach_cons, Hr. cbn [fst snd]. rewrite Hrest.
      cbn [map concat fst snd]. rewrite emit_emit. reflexivity.
    + constructor; [exists (trace s); exact Hrec | exact Hall].
Qed.

End Status.


(* ===================================================================== *)
(** ** The accessors before [open] *)
(* ===================================================================== *)

Section Accessors.
Context (E : Env).

Lemma getConfig_stored (arg : optarg) (s : St) (c : loc) :
  _cfg (this s) = Some c → getConfig E arg s = (Ok c, s).
Proof. intros Hc. unfold getConfig. run. rewrite Hc. reflexivity. Qed.

(** C9: once a config is stored, [getConfig] yields it, whatever the
    argument and however often it is called, and leaves the state as it is:
    it calls no collaborator, so nothing is resolved, no scaffold is checked
    and no saved state is loaded. *)
Theorem getConfig_returns_stored (arg : optarg) (n : nat) (s : St) (c : loc) :
  _cfg (this s) = Some c →
  getConfig E arg s = (Ok c, s)
  ∧ times n (getConfig E arg) s = (replicate n (Ok c), s).
Proof.
  intros Hc. split; [apply getConfig_stored, Hc|].
  induction n as [|n IH]; [reflexivity|].
  cbn [times]. rewrite (getConfig_stored arg s c Hc), IH. reflexivity.
Qed.

(** C10: without a stored config [saveState] and [removeScaffoldedFiles]
    throw, whatever the state changes are, and leave the state as it is:
    nothing is persisted and no collaborator is called. *)
Theorem saveState_before_open (stateChanges : obj) (s : St) :
  _cfg (this s) = None →
  saveState E stateChanges s
    = (Throw (JsError "ProjectBase#open must first be called"), s)
  ∧ removeScaffoldedFiles E s
    = (Throw (JsError "ProjectBase#open must first be called"), s).
Proof.
  intros Hc. unfold saveState, removeScaffoldedFiles. run.
  rewrite Hc. split; reflexivity.
Qed.

(** C2: on an instance that has no server, [close] throws the error of the
    accessor [this.server]; it has cleared [spec] and [browser] and has
    released nothing: no collaborator was called. *)
Theorem close_before_open (s : St) :
  _server (this s) = None →
  close E s
  = (Throw (JsError "ProjectBase#open must first be called"),
     set_this (with_spec_browser VNull VNull) s).
Proof.
  intros Hs. unfold close. run. cbn. rewrite Hs. reflexivity.
Qed.
End Accessors.

Lemma getConfig_returns_stored_witness :
  _cfg (this openedState) = Some 1%nat
  ∧ getConfig quietEnv Null openedState = (Ok 1%nat, openedState)
  ∧ times 3 (getConfig quietEnv Null) openedState
    = (replicate 3 (Ok 1%nat), openedState).
Proof.
  split; [vm_compute; reflexivity|].
  apply (getConfig_returns_stored quietEnv Null 3 openedState 1%nat).
  vm_compute. reflexivity.
Defined.

Lemma saveState_before_open_witness :
  saveState quietEnv {[ "appWidth" := VNum 800 ]} (initial e2eProject)
    = (Throw (JsError "ProjectBase#open must first be called"), initial e2eProject)
  ∧ removeScaffoldedFiles quietEnv (initial e2eProject)
    = (Throw (JsError "ProjectBase#open must first be called"), initial e2eProject).
Proof.
  apply (saveState_before_open quietEnv {[ "appWidth" := VNum 800 ]}
           (initial e2eProject)).
  reflexivity.
Defined.

Lemma close_before_open_witness :
  close quietEnv (initial e2eProject)
  = (Throw (JsError "ProjectBase#open must first be called"),
     set_this (with_spec_browser VNull VNull) (initial e2eProject)).
Proof. apply (close_before_open quietEnv (initial e2eProject)). reflexivity. Defined.

(* ===================================================================== *)
(** ** [reset] *)
(* ===================================================================== *)

Section ResetTwice.
Context (E : Env).

Lemma reset_this (s : St) :
  this (reset E s).2 = with_spec_browser VNull VNull (this s).
Proof.
  unfold reset. run. cbn.
  repeat first [ case_answer; cbn | case_field; cbn ]; reflexivity.
Qed.

Lemma reset_returned (s : St) :
  (∀ tr, _automation (this s) ≠ None → returned (answer E unit tr AutomationReset)) →
  (∀ tr, _server (this s) ≠ None → returned (answer E value tr ServerReset)) →
  returned (reset E s).1.
Proof.
  intros Ha Hs. unfold reset. run. cbn.
  destruct (_automation (this s)) eqn:Ea; cbn.
  - match goal with |- context [answer E unit ?t AutomationReset] =>
      specialize (Ha t ltac:(discriminate)) end.
    case_answer; cbn; [|exact Ha].
    destruct (_server (this s)); cbn; [|exact I].
    match goal with |- context [answer E value ?t ServerReset] =>
      specialize (Hs t ltac:(discriminate)) end.
    case_answer; cbn; [exact I|exact Hs].
  - destruct (_server (this s)); cbn; [|exact I].
    match goal with |- context [answer E value ?t ServerReset] =>
      specialize (Hs t ltac:(discriminate)) end.
    case_answer; cbn; [exact I|exact Hs].
Qed.

(** C6: after one call of [reset] or more, [spec] and [browser] are [null]
    and the instance is as one call leaves it; and when the [reset] of the
    automation and of the server (where the instance has them) do not
    throw, no call of [reset] throws: without an automation session nothing
    is asked of it. *)
Theorem reset_idempotent (n : nat) (s : St) :
  (∀ tr, _automation (this s) ≠ None → returned (answer E unit tr AutomationReset)) →
  (∀ tr, _server (this s) ≠ None → returned (answer E value tr ServerReset)) →
  spec (this (times (S n) (reset E) s).2) = VNull
  ∧ browser (this (times (S n) (reset E) s).2) = VNull
  ∧ this (times (S n) (reset E) s).2 = this (reset E s).2
  ∧ Forall returned (times (S n) (reset E) s).1.
Proof.
  intros Ha Hs.
  assert (Hthis : ∀ k s0, this (times (S k) (reset E) s0).2
                          = with_spec_browser VNull VNull (this s0)).
  { induction k as [|k IH]; intros s0.
    - cbn. pose proof (reset_this s0) as Hr. destruct (reset E s0); exact Hr.
    - change (times (S (S k)) (reset E) s0)
        with (let '(r, s1) := reset E s0 in
              let '(rs, s2) := times (S k) (reset E) s1 in (r :: rs, s2)).
      pose proof (reset_this s0) as Hr. destruct (reset E s0) as [r s1].
      specialize (IH s1). destruct (times (S k) (reset E) s1) as [rs s2].
      cbn in *. rewrite IH, Hr. reflexivity. }
  rewrite Hthis, reset_this. repeat split.
  revert s Ha Hs. induction n as [|n IH]; intros s Ha Hs.
  - cbn. pose proof (reset_returned s Ha Hs) as Hr.
    destruct (reset E s); cbn in *. constructor; [exact Hr|constructor].
  - change (times (S (S n)) (reset E) s)
      with (let '(r, s1) := reset E s in
            let '(rs, s2) := times (S n) (reset E) s1 in (r :: rs, s2)).
    pose proof (reset_returned s Ha Hs) as Hr.
    pose proof (reset_this s) as Ht.
    destruct (reset E s) as [r s1]. cbn in Hr, Ht.
    assert (IH' := IH s1).
    destruct (times (S n) (reset E) s1) as [rs s2]. cbn in *.
    constructor; [exact Hr|]. apply IH'; intros tr; rewrite Ht; cbn.
    + apply Ha. + apply Hs.
Qed.
End ResetTwice.

Lemma reset_idempotent_witness :
  spec (this (times 3 (reset quietEnv) openedState).2) = VNull
  ∧ browser (this (times 3 (reset quietEnv) openedState).2) = VNull
  ∧ this (times 3 (reset quietEnv) openedState).2
    = this (reset quietEnv openedState).2
  ∧ Forall returned (times 3 (reset quietEnv) openedState).1.
Proof.
  apply (reset_idempotent quietEnv 2 openedState); intros tr _; exact I.
Defined.

(* ===================================================================== *)
(** ** The URL of all specs *)
(* ===================================================================== *)

Lemma append_cons (c : ascii) (a b : string) :
  String c a +:+ b = String c (a +:+ b).
Proof. reflexivity. Qed.

Lemma append_nil (b : string) : "" +:+ b = b.
Proof. reflexivity. Qed.

Lemma append_assoc (a b c : string) : (a +:+ b) +:+ c = a +:+ (b +:+ c).
Proof.
  induction a as [|x a IH]; [reflexivity|].
  rewrite !append_cons, IH. reflexivity.
Qed.

Lemma replace_step (c c1 c2 : ascii) (r : string) :
  replaceMultipleForwardSlashes (String c (String c1 (String c2 r)))
  = if negb (Ascii.eqb c colon) && negb (Ascii.eqb c slash)
       && Ascii.eqb c1 slash && Ascii.eqb c2 slash
    then String c (replaceMultipleForwardSlashes (String c2 r))
    else String c (replaceMultipleForwardSlashes (String c1 (String c2 r))).
Proof. reflexivity. Qed.

Lemma replace_two (c c1 : ascii) :
  replaceMultipleForwardSlashes (String c (String c1 ""))
  = String c (String c1 "").
Proof. reflexivity. Qed.

(** What follows is replaced on its own when it starts with one slash only
    and what precedes does not end in a slash. *)
Lemma replace_app (n : nat) : ∀ (b : string) (c : ascii) (r : string),
  (String.length b ≤ n)%nat →
  endsIn slash b = false →
  Ascii.eqb c slash = false →
  replaceMultipleForwardSlashes (b +:+ String slash (String c r))
  = replaceMultipleForwardSlashes b
    +:+ replaceMultipleForwardSlashes (String slash (String c r)).
Proof.
  induction n as [|n IH]; intros b c r Hlen Hend Hc.
  - destruct b; [reflexivity | cbn in Hlen; lia].
  - destruct b as [|x [|x1 [|x2 b]]].
    + reflexivity.
    + cbn in Hend. rewrite !append_cons, ?append_nil.
      rewrite replace_step, Hc, !andb_false_r. reflexivity.
    + cbn in Hend. rewrite !append_cons, ?append_nil.
      rewrite replace_step, Hend, andb_false_r, andb_false_l.
      rewrite replace_two.
      change (String x1 (String slash (String c r)))
        with (String x1 "" +:+ String slash (String c r)).
      rewrite IH; [reflexivity | cbn in Hlen |- *; lia | exact Hend | exact Hc].
    + rewrite !append_cons, ?append_nil. rewrite !replace_step.
      cbn in Hlen.
      destruct (negb (Ascii.eqb x colon) && negb (Ascii.eqb x slash)
                && Ascii.eqb x1 slash && Ascii.eqb x2 slash).
      * change (String x2 (b +:+ String slash (String c r)))
          with (String x2 b +:+ String slash (String c r)).
        rewrite IH; [reflexivity | cbn in Hlen |- *; lia | exact Hend | exact Hc].
      * change (String x1 (String x2 (b +:+ String slash (String c r))))
          with (String x1 (String x2 b) +:+ String slash (String c r)).
        rewrite IH; [reflexivity | cbn in Hlen |- *; lia | exact Hend | exact Hc].
Qed.

(** A doubled slash after a character other than [:] and [/] loses its
    first slash. *)
Lemma replace_app_slashes (n : nat) : ∀ (b r : string),
  (String.length b ≤ n)%nat →
  b ≠ "" →
  endsIn slash b = false →
  endsIn colon b = false →
  replaceMultipleForwardSlashes (b +:+ String slash (String slash r))
  = replaceMultipleForwardSlashes b
    +:+ replaceMultipleForwardSlashes (String slash r).
Proof.
  induction n as [|n IH]; intros b r Hlen Hne Hs Hc.
  - destruct b; [congruence | cbn in Hlen; lia].
  - destruct b as [|x [|x1 [|x2 b]]].
    + congruence.
    + cbn in Hs, Hc. rewrite !append_cons, ?append_nil.
      rewrite replace_step, Hs, Hc, !Ascii.eqb_refl. reflexivity.
    + cbn in Hs, Hc. rewrite !append_cons, ?append_nil.
      rewrite replace_step, Hs, !andb_false_r, andb_false_l, replace_two.
      change (String x1 (String slash (String slash r)))
        with (String x1 "" +:+ String slash (String slash r)).
      rewrite IH;
        [reflexivity | cbn in Hlen |- *; lia | congruence | exact Hs | exact Hc].
    + rewrite !append_cons, ?append_nil. rewrite !replace_step. cbn in Hlen.
      destruct (negb (Ascii.eqb x colon) && negb (Ascii.eqb x slash)
                && Ascii.eqb x1 slash && Ascii.eqb x2 slash).
      * change (String x2 (b +:+ String slash (String slash r)))
          with (String x2 b +:+ String slash (String slash r)).
        rewrite IH;
          [reflexivity | cbn in Hlen |- *; lia | congruence | exact Hs | exact Hc].
      * change (String x1 (String x2 (b +:+ String slash (String slash r))))
          with (String x1 (String x2 b) +:+ String slash (String slash r)).
        rewrite IH;
          [reflexivity | cbn in Hlen |- *; lia | congruence | exact Hs | exact Hc].
Qed.


Section Url.
Context (E : Env).

End Url.


(* ===================================================================== *)
(** ** The viewport of a component-testing config *)
(* ===================================================================== *)

Section ComponentTesting.
Context (E : Env).

Lemma injectCtSpecificConfig_defaults (c : loc) (s : St) (raw : obj) :
  field (default ∅ (heap s !! c)) "rawJson" = VObj raw →
  nullish (field raw "viewportHeight") = true →
  nullish (field raw "viewportWidth") = true →
  injectCtSpecificConfig c s
  = (Ok (length (heap s)),
     set_heap (λ h, h ++ [<["viewportWidth" := VNum 500]>
                            (<["viewportHeight" := VNum 500]>
                               (default ∅ (heap s !! c)))]) s).
Proof.
  intros Hraw Hh Hw. unfold injectCtSpecificConfig.
  rewrite bind_deref. cbv zeta. rewrite Hraw. cbn [prop].
  rewrite !bind_lift_Ok. unfold coalesce. rewrite Hh, Hw. reflexivity.
Qed.

(** C8: for a component project, when the config that [_initPlugins]
    resolves has a [rawJson] without [viewportHeight] and [viewportWidth],
    the config that [onOpen] yields has both at 500 and is the resolved
    config otherwise. *)
Theorem onOpen_ct_viewport (cfg0 : loc) (options : obj) (s s1 s' : St)
    (resolved : loc) (raw : obj) (cfg2 : loc) (port warning : value) :
  projectType (this s) = ct →
  _initPlugins E cfg0 options (set_this (with_server (Some ct)) s)
    = (Ok resolved, s1) →
  field (default ∅ (heap s1 !! resolved)) "rawJson" = VObj raw →
  nullish (field raw "viewportHeight") = true →
  nullish (field raw "viewportWidth") = true →
  onOpen E cfg0 options s = (Ok (cfg2, port, warning), s') →
  ∃ o, heap s' !! cfg2 = Some o
       ∧ field o "viewportHeight" = VNum 500
       ∧ field o "viewportWidth" = VNum 500
       ∧ ∀ k, k ≠ "viewportHeight" → k ≠ "viewportWidth" →
              field o k = field (default ∅ (heap s1 !! resolved)) k.
Proof.
  intros Hct Hplug Hraw Hh Hw H. unfold onOpen in H.
  step H. rewrite Hct in H. step H. rewrite run_bind, Hplug in H.
  rewrite run_bind in H.
  rewrite (injectCtSpecificConfig_defaults _ _ raw Hraw Hh Hw) in H.
  unfold server in H. step H. step H.
  match type of H with
  | context [_server ?t] => destruct (_server t); [|discriminate H]
  end.
  unfold ensureProp in H. step H. step H. step H. destruct a as [p w].
  injection H as <- <- <- <-.
  eexists. split; [|split; [|split]].
  - cbn. rewrite lookup_app_r, Nat.sub_diag by lia. reflexivity.
  - rewrite field_insert_ne by discriminate. apply field_insert_eq.
  - apply field_insert_eq.
  - intros k Hk1 Hk2. rewrite !field_insert_ne by congruence. reflexivity.
Qed.
End ComponentTesting.

Lemma onOpen_ct_viewport_witness :
  ∃ o, heap (onOpen quietEnv 0%nat callerOptions ctResolved).2 !! 2%nat = Some o
       ∧ field o "viewportHeight" = VNum 500
       ∧ field o "viewportWidth" = VNum 500
       ∧ ∀ k, k ≠ "viewportHeight" → k ≠ "viewportWidth" →
              field o k
              = field (default ∅
                         (heap (_initPlugins quietEnv 0%nat callerOptions
                                  (set_this (with_server (Some ct)) ctResolved)).2
                          !! 1%nat)) k.
Proof.
  apply (onOpen_ct_viewport quietEnv 0%nat callerOptions ctResolved
           (_initPlugins quietEnv 0%nat callerOptions
              (set_this (with_server (Some ct)) ctResolved)).2
           (onOpen quietEnv 0%nat callerOptions ctResolved).2
           1%nat {[ "projectId" := VStr "abc123" ]} 2%nat (VNum 8888) VUndef).
  - reflexivity.
  - apply returned_as. vm_compute. reflexivity.
  - vm_compute. reflexivity.
  - reflexivity.
  - reflexivity.
  - apply returned_as. vm_compute. reflexivity.
Defined.

(* ===================================================================== *)
(** ** Re-initialising the plugins when the plugins file changes *)
(* ===================================================================== *)

(** C4, as stated, fails when the re-initialisation is rejected: the
    [catch] handler of [watchPluginsFile] hands the error to
    [options.onError] and [browsers.close] is not called. *)
Lemma reinit_rejection_leaves_browser :
  watched watchingState !! 0%nat
    = Some (VStr "/proj/cypress/plugins/index.js",
            PluginsFileChanged 1%nat storedOptions)
  ∧ (fileChanged reinitFails 0 watchingState).1 = Ok tt
  ∧ map isPluginsInit
        (drop (length (trace watchingState))
              (trace (fileChanged reinitFails 0 watchingState).2))
    = [true; false]
  ∧ last (trace (fileChanged reinitFails 0 watchingState).2)
    = Some (Ev (Callback "onError" [VObj pluginsError]))
  ∧ existsb isBrowsersClose
      (drop (length (trace watchingState))
            (trace (fileChanged reinitFails 0 watchingState).2)) = false.
Proof.
  split; [vm_compute; reflexivity|].
  split; [vm_compute; reflexivity|].
  split; [vm_compute; reflexivity|].
  split; vm_compute; reflexivity.
Qed.

Section Reinit.
Context (E : Env).

Lemma initPlugins_events (c : loc) (options : obj) (s : St) :
  ∃ ev evs,
    isPluginsInit ev = true
    ∧ trace (_initPlugins E c options s).2 = trace s ++ ev :: evs
    ∧ forallb notBrowsersClose (ev :: evs) = true
    ∧ watched (_initPlugins E c options s).2 = watched s.
Proof.
  unfold _initPlugins.
  rewrite bind_deref. cbv zeta. rewrite bind_getThis, bind_modify, bind_ext.
  match goal with
  | |- context [answer E value ?t ?c] =>
      set (ev := Ev c); destruct (answer E value t c) as [a|e]
  end.
  - match goal with
    | |- context [(?k ?st).2] =>
        assert (Hk : since st notBrowsersClose (k st).2
                     ∧ watched (k st).2 = watched s)
    end.
    { match goal with
      | |- since ?st _ (?k _).2 ∧ _ =>
          apply (preserves_and (since st notBrowsersClose)
                               (λ x, watched x = watched s) k)
      end; [frame|frame|].
      split; [apply since_refl|reflexivity]. }
    destruct Hk as [(evs & Ht & HP) Hw]. exists ev, evs. repeat split.
    + rewrite Ht. cbn. rewrite <- app_assoc. reflexivity.
    + exact HP.
    + exact Hw.
  - exists ev, []. repeat split.
Qed.

(** C4, amended: when a change of the watched plugins file starts a
    re-initialisation that is rejected with [err], the handler returns
    normally (nothing is rejected towards the caller of [open]); what it
    did is call [plugins.init] and hand [err] to [options.onError],
    without closing the browsers; the watch stays, and the next change
    calls [plugins.init] again.  The browsers are closed before
    [options.onError] on the other path, when the plugin host reports the
    error through the [onError] it was given. *)
Theorem plugins_reinit_failure (s s1 : St) (i : nat) (path : value) (c : loc)
    (options : obj) (f : string) (err : error) :
  watched s !! i = Some (path, PluginsFileChanged c options) →
  field options "onError" = VFun (Extern f) →
  _initPlugins E c options s = (Throw err, s1) →
  fileChanged E i s = (Ok tt, emit [Ev (Callback f [VObj err])] s1)
  ∧ (∃ ev evs, isPluginsInit ev = true
       ∧ trace s1 = trace s ++ ev :: evs
       ∧ existsb isBrowsersClose (ev :: evs) = false)
  ∧ watched (emit [Ev (Callback f [VObj err])] s1) !! i
    = Some (path, PluginsFileChanged c options)
  ∧ (∃ ev evs, isPluginsInit ev = true
       ∧ trace (fileChanged E i (emit [Ev (Callback f [VObj err])] s1)).2
         = trace (emit [Ev (Callback f [VObj err])] s1) ++ ev :: evs)
  ∧ (pluginsOnError s = Some options →
     returned (answer E unit (trace s) BrowsersClose) →
     (pluginError E err s).2
     = emit [Ev BrowsersClose; Ev (Callback f [VObj err])] s).
Proof.
  intros Hw Hf Hinit.
  destruct (initPlugins_events c options s) as (ev & evs & Hev & Ht & HP & Hwd).
  rewrite Hinit in Ht, Hwd. cbn [snd] in Ht, Hwd.
  assert (Hrun : ∀ x, watched x = watched s →
            fileChanged E i x
            = (Ok tt, match _initPlugins E c options x with
                      | (Ok _, x1) => x1
                      | (Throw e, x1) =>
                          (invoke E (field options "onError") [VObj e] x1).2
                      end)).
  { intros x Hx. unfold fileChanged. rewrite bind_gets, Hx, Hw.
    unfold onChange. rewrite bind_start.
    destruct (_initPlugins E c options x) as [[l|e] x1]; cbn [fst snd]; [reflexivity|].
    rewrite bind_start. reflexivity. }
  split; [|split; [|split; [|split]]].
  - rewrite Hrun by reflexivity. rewrite Hinit, Hf. reflexivity.
  - exists ev, evs. repeat split; [exact Hev|exact Ht|].
    clear -HP. induction (ev :: evs) as [|e l IH]; [reflexivity|].
    cbn in *. apply andb_prop in HP as [He Hl]. unfold notBrowsersClose in He.
    destruct (isBrowsersClose e); [discriminate|]. apply IH, Hl.
  - cbn. rewrite Hwd. exact Hw.
  - rewrite Hrun by exact Hwd.
    destruct (initPlugins_events c options (emit [Ev (Callback f [VObj err])] s1))
      as (ev' & evs' & Hev' & Ht' & _ & _).
    destruct (_initPlugins E c options (emit [Ev (Callback f [VObj err])] s1))
      as [[l|e] x1]; cbn [snd] in *.
    + exists ev', evs'. split; assumption.
    + exists ev'. rewrite Hf. cbn. rewrite Ht'. rewrite <- app_assoc. cbn.
      eexists. split; [exact Hev'|reflexivity].
  - intros Hp Hb. unfold pluginError. rewrite bind_gets, Hp.
    unfold _onError. rewrite bind_assoc, bind_ext.
    destruct (answer E () (trace s) BrowsersClose) as [[]|]; [|destruct Hb].
    rewrite Hf. cbn. rewrite run_bind. unfold ext.
    destruct (answer E value _ _); cbn; unfold emit, set_trace; cbn;
      rewrite <- app_assoc; reflexivity.
Qed.
End Reinit.

Lemma plugins_reinit_failure_witness :
  fileChanged reinitFails 0 watchingState
  = (Ok tt, emit [Ev (Callback "onError" [VObj pluginsError])]
              (_initPlugins reinitFails 1%nat storedOptions watchingState).2)
  ∧ (pluginError reinitFails pluginsError watchingState).2
    = emit [Ev BrowsersClose; Ev (Callback "onError" [VObj pluginsError])]
        watchingState.
Proof.
  destruct (plugins_reinit_failure reinitFails watchingState
              (_initPlugins reinitFails 1%nat storedOptions watchingState).2
              0%nat (VStr "/proj/cypress/plugins/index.js") 1%nat storedOptions
              "onError" pluginsError) as (H1 & _ & _ & _ & H5).
  - vm_compute. reflexivity.
  - vm_compute. reflexivity.
  - apply thrown_as. vm_compute. reflexivity.
  - split; [exact H1|]. apply H5; [vm_compute; reflexivity|vm_compute; exact I].
Defined.

(* ===================================================================== *)
(** ** The stored config over the life of an instance *)
(* ===================================================================== *)

(** C3, as stated, fails after [close]: an e2e project is opened and
    closed, both successfully, and the config is still stored. *)
Lemma close_keeps_stored_config :
  (open quietEnv callerOptions (initial e2eProject)).1 = Ok VUndef
  ∧ (close quietEnv openedState).1 = Ok VUndef
  ∧ _cfg (this (close quietEnv openedState).2) ≠ None.
Proof.
  split; [vm_compute; reflexivity|].
  split; [vm_compute; reflexivity|].
  vm_compute. discriminate.
Qed.

Section Lifecycle.
Context (E : Env).

Lemma run_keeps_cfg (o : operation) (x : option loc) :
  ¬ isOpen o → preserves (λ s, _cfg (this s) = x) (run E o).
Proof.
  intros Hno. destruct o; try (exfalso; apply Hno; exact I); unfold run; frame.
Qed.

Lemma run_keeps_cfg_set (o : operation) :
  preserves (λ s, is_Some (_cfg (this s))) (run E o).
Proof. destruct o; unfold run; frame. Qed.

Lemma open_stores (options : obj) (s s' : St) (v : value) :
  open E options s = (Ok v, s') → is_Some (_cfg (this s')).
Proof.
  intros H. unfold open in H. cbv zeta in H.
  step H. call H cfg1 s1 H1. step H. step H. step H. call H u2 s2 H2.
  step H. call H u3 s3 H3. call H r s4 H4. destruct r as [[cfg2 port] warning].
  step H. call H u5 s5 H5. step H. step H. step H.
  eapply (preserves_run (λ x, is_Some (_cfg (this x)))); [|exact H|].
  - frame.
  - eexists; reflexivity.
Qed.

(** C3, amended: the stored config is undefined on a new instance and
    stays so under every operation other than [open]; an [open] that
    completes leaves it defined; once defined it stays defined under every
    operation, and [close] in particular leaves it as it is. *)
Theorem stored_config_lifecycle :
  (∀ root t p, construct E root t = Ok p → _cfg p = None)
  ∧ (∀ ops s, Forall (λ o, ¬ isOpen o) ops →
       _cfg (this (runAll E ops s)) = _cfg (this s))
  ∧ (∀ options s v s', open E options s = (Ok v, s') → is_Some (_cfg (this s')))
  ∧ (∀ ops s, is_Some (_cfg (this s)) → is_Some (_cfg (this (runAll E ops s))))
  ∧ (∀ s, _cfg (this (close E s).2) = _cfg (this s)).
Proof.
  split; [|split; [|split; [|split]]].
  - intros root t p. unfold construct.
    destruct (root =? "")%string; [discriminate|].
    intros [= <-]. reflexivity.
  - intros ops s Hops. revert s.
    induction Hops as [|o ops Ho _ IH]; intros s; [reflexivity|].
    cbn [runAll foldl]. fold (runAll E ops (run E o s).2). rewrite IH.
    apply (run_keeps_cfg o (_cfg (this s)) Ho s). reflexivity.
  - intros options s v s' H. eapply open_stores, H.
  - intros ops. induction ops as [|o ops IH]; intros s Hs; [exact Hs|].
    cbn [runAll foldl]. fold (runAll E ops (run E o s).2).
    apply IH, (run_keeps_cfg_set o s Hs).
  - intros s.
    assert (Hc : preserves (λ x, _cfg (this x) = _cfg (this s)) (close E))
      by (unfold close; frame).
    apply (Hc s). reflexivity.
Qed.
End Lifecycle.

Lemma stored_config_lifecycle_witness :
  _cfg (this (runAll quietEnv [OpClose; OpReset; OpGetConfig Omitted]
                (initial e2eProject))) = None
  ∧ is_Some (_cfg (this openedState))
  ∧ is_Some (_cfg (this (runAll quietEnv [OpClose; OpReset] openedState))).
Proof.
  destruct (stored_config_lifecycle quietEnv) as (_ & H2 & H3 & H4 & _).
  assert (Ho : is_Some (_cfg (this openedState))).
  { unfold openedState.
    apply (H3 callerOptions (initial e2eProject) VUndef
              (open quietEnv callerOptions (initial e2eProject)).2).
    apply returned_as. vm_compute. reflexivity. }
  split; [|split].
  - apply (H2 [OpClose; OpReset; OpGetConfig Omitted] (initial e2eProject)).
    repeat constructor; intros [].
  - exact Ho.
  - apply H4, Ho.
Defined.

(* ===================================================================== *)
(** ** The timestamps [open] persists *)
(* ===================================================================== *)

Section OpenState.
Context (E : Env).

Lemma getConfig_fresh (arg : optarg) (s s' : St) (l : loc) :
  _cfg (this s) = None →
  getConfig E arg s = (Ok l, s') →
  carries l (VObj (persistedState s)) s' ∧ world s s'.
Proof.
  intros Hc H. unfold getConfig in H.
  step H. step H. rewrite Hc in H. step H. step H. step H.
  call H u s1 Hnew. unfold _setSavedState in H.
  step H. step H. step H. unfold savedState_get in H. step H. step H.
  injection H as <- <-.
  assert (Hw : world s s1).
  { eapply (preserves_run (world s)); [|exact Hnew|repeat split]. frame. }
  assert (Hv : is_Some (heap s1 !! length (heap s))).
  { eapply (preserves_run (λ s0, is_Some (heap s0 !! length (heap s))));
      [|exact Hnew|]; [frame|].
    cbn. rewrite lookup_app_r, Nat.sub_diag by lia. eexists; reflexivity. }
  destruct Hv as [o Ho]. split.
  - exists (<["state" := VObj (persistedState s)]> o). cbn.
    rewrite list_lookup_alter_eq, Ho. cbn. split; [|apply field_insert_eq].
    destruct Hw as (Hp & _ & Hr & _). unfold persistedState.
    rewrite Hp, Hr. reflexivity.
  - destruct Hw as (?&?&?&?). repeat split; assumption.
Qed.

Lemma initPlugins_carries (c : loc) (options : obj) (v : value) (s s' : St) (l : loc) :
  keepsState E →
  carries c v s →
  _initPlugins E c options s = (Ok l, s') →
  carries l v s' ∧ world s s'.
Proof.
  intros [Hupd _] (o & Ho & Hv) H. unfold _initPlugins in H.
  step H. step H. step H. step H. step H. step_lift H. step H. step H.
  call H u s1 Hct. step H. step H. unfold initSpecStore in H.
  step H. call H u' s2 Hdev. step H. injection H as <- <-.
  cbn [heap emit set_trace set_pluginsOnError] in *.
  rewrite Ho in Hx. cbn in Hx. apply Hupd in Hx.
  set (s0 := set_heap (λ h, h ++ [x])
               (emit [Ev (PluginsInit (config_allowed E o) (projectRoot (this s))
                          (settings_pathToConfigFile E (projectRoot (this s)) options)
                          (field options "testingType"))]
                  (set_pluginsOnError (Some options) s))) in *.
  assert (H0 : carries (length (heap s)) v s0 ∧ world s s0).
  { split; [|repeat split]. eapply carries_new; [reflexivity|congruence]. }
  assert (H1 : carries (length (heap s)) v s1 ∧ world s s1).
  { eapply (preserves_run (λ s, carries (length (heap _)) v s ∧ world _ s));
      [|exact Hct|exact H0].
    apply preserves_and; frame. }
  assert (H2 : carries (length (heap s)) v s2 ∧ world s s2).
  { eapply (preserves_run (λ s, carries (length (heap _)) v s ∧ world _ s));
      [|exact Hdev|].
    - apply preserves_and; frame.
    - destruct H1 as [Hc1 Hw1]. split; [|exact Hw1].
      eapply carries_heap; [|exact Hc1]. reflexivity. }
  destruct H2 as [Hc2 Hw2]. split.
  - eapply carries_heap; [|exact Hc2]. reflexivity.
  - exact Hw2.
Qed.

Lemma onOpen_carries (c : loc) (options : obj) (v : value) (s s' : St)
    (c2 : loc) (port warning : value) :
  keepsState E →
  carries c v s →
  onOpen E c options s = (Ok (c2, port, warning), s') →
  carries c2 v s' ∧ world s s'.
Proof.
  intros Hk Hc H. unfold onOpen in H.
  step H. step H. call H l s1 Hplug.
  eapply initPlugins_carries in Hplug; [|exact Hk|].
  2:{ eapply carries_heap; [|exact Hc]. reflexivity. }
  destruct Hplug as [(o & Ho & Hv) Hw].
  destruct (projectType (this s)).
  - step H. unfold server in H. step H. step H.
    destruct (_server (this s1)); [|discriminate H]. unfold ensureProp in H.
    step H. step H. step H. destruct a as [p w]. injection H as <- <- <- <-.
    split; [exists o; auto|exact Hw].
  - unfold injectCtSpecificConfig in H. call H l2 s2 Hinj.
    unfold server in H. step H. step H.
    destruct (_server (this s2)); [|discriminate H]. unfold ensureProp in H.
    step H. step H. step H. destruct a as [p w]. injection H as <- <- <- <-.
    step Hinj. step_lift Hinj. step_lift Hinj.
    unfold alloc in Hinj. injection Hinj as <- <-. split.
    + eapply carries_new; [reflexivity|].
      rewrite Ho. cbn [from_option id]. rewrite !field_insert_ne by discriminate.
      exact Hv.
    + exact Hw.
Qed.

Lemma saveState_persists (changes : obj) (s s' : St) (st : obj) :
  saveState E changes s = (Ok st, s') →
  persistedState s' = changes ∪ persistedState s
  ∧ clock s' = clock s
  ∧ projectRoot (this s') = projectRoot (this s)
  ∧ projectType (this s') = projectType (this s)
  ∧ ∀ root, root ≠ projectRoot (this s) → persisted s' !! root = persisted s !! root.
Proof.
  intros H. unfold saveState, cfg, savedState_set, savedState_get, ext in H.
  run in H. cbn in H.
  destruct (_cfg (this s)) as [c|] eqn:Hc; [|discriminate H]. cbn in H.
  destruct (projectRoot (this s) =? "")%string; [discriminate H|].
  rewrite Hc in H. cbn in H.
  match type of H with
  | context [answer ?E ?A ?t ?c] => destruct (answer E A t c); [|discriminate H]
  end.
  rewrite Hc in H. cbn in H.
  injection H as <- <-. unfold persistedState. cbn.
  rewrite lookup_insert_eq. repeat split.
  intros root Hne. rewrite lookup_insert_ne; auto.
Qed.

Lemma onWarning_defaults (options : obj) :
  field (defaults options open_defaults) "onWarning" = VFun SaveState →
  field options "onWarning" = VFun SaveState.
Proof.
  intros Hf. rewrite field_defaults in Hf. unfold field.
  destruct (options !! "onWarning") as [[]|]; cbn [default];
    try exact Hf; vm_compute in Hf; discriminate Hf.
Qed.

(** What an [open] that completes has persisted: the time of the call as
    [lastOpened], and as [firstOpened] too unless the state the config came
    with has one, over what was persisted before. *)
Lemma open_saves (options : obj) (s s' : St) (v : value) (P : obj) :
  keepsState E →
  field options "onWarning" ≠ VFun SaveState →
  match _cfg (this s) with
  | Some c => carries c (VObj P) s
  | None => P = persistedState s
  end →
  open E options s = (Ok v, s') →
  persistedState s'
  = (if truthy (field P "firstOpened")
     then {[ "lastOpened" := VNum (clock s) ]}
     else <["firstOpened" := VNum (clock s)]> {[ "lastOpened" := VNum (clock s) ]})
    ∪ persistedState s.
Proof.
  intros Hk Hwarn Hin H. pose proof Hk as [Hupd Hurl]. unfold open in H.
  cbv zeta in H. step H.
  call H cfg1 s1 Hgc.
  assert (I1 : carries cfg1 (VObj P) s1 ∧ world s s1).
  { destruct (_cfg (this s)) as [c|] eqn:Hc.
    - rewrite getConfig_stored with (c := c) in Hgc by exact Hc.
      injection Hgc as <- <-. split; [|repeat split].
      eapply carries_heap; [|exact Hin]. reflexivity.
    - apply getConfig_fresh in Hgc; [|exact Hc]. subst P. exact Hgc. }
  clear Hgc Hin.
  step H. step H. step H.
  call H u2 s2 Hm2.
  eapply (preserves_run (λ x, carries cfg1 (VObj P) x ∧ world s x)) in Hm2 as I2;
    [|apply preserves_and; frame|].
  2:{ destruct I1 as [Ic Iw]. split; [eapply carries_heap; [|exact Ic]; reflexivity|exact Iw]. }
  clear Hm2 I1.
  step H.
  call H u3 s3 Hm3.
  eapply (preserves_run (λ x, carries cfg1 (VObj P) x ∧ world s x)) in Hm3 as I3;
    [|apply preserves_and; frame|exact I2].
  clear Hm3 I2.
  call H r s4 Hoo. destruct r as [[cfg2 port] warning].
  assert (I4 : carries cfg2 (VObj P) s4 ∧ world s s4).
  { destruct I3 as [Ic Iw]. eapply onOpen_carries in Hoo; [|exact Hk|exact Ic].
    destruct Hoo as [Hc4 Hw4]. split; [exact Hc4|]. eapply world_trans; eassumption. }
  clear Hoo I3.
  step H.
  call H u5 s5 Hm5.
  eapply (preserves_run (λ x, carries cfg2 (VObj P) x ∧ world s x)) in Hm5 as I5;
    [|apply preserves_and; frame|exact I4].
  clear Hm5 I4.
  step H. step H. step H.
  call H u6 s6 Hm6.
  eapply (preserves_run (λ x, carries cfg2 (VObj P) x ∧ world s x)) in Hm6 as I6.
  2:{ apply preserves_and.
      - destruct (truthy warning); [|frame]. unfold invoke.
        destruct (field (defaults options open_defaults) "onWarning")
          as [| | | | |[]| |] eqn:Hf; try solve [frame].
        exfalso. apply Hwarn. eapply onWarning_defaults, Hf.
      - destruct (truthy warning); [|frame]. unfold invoke.
        destruct (field (defaults options open_defaults) "onWarning")
          as [| | | | |[]| |] eqn:Hf; try solve [frame].
        exfalso. apply Hwarn. eapply onWarning_defaults, Hf. }
  2:{ destruct I5 as [Ic Iw]. split; [eauto with frame|exact Iw]. }
  clear Hm6 I5.
  step H. step H. step H. step H.
  destruct I6 as [(o & Ho & Hst) Iw].
  cbn [heap set_this set_pluginsOnError from_option] in H. rewrite Ho in H.
  cbn [from_option id] in H. rewrite Hst in H. cbn [truthy] in H.
  change (prop (VObj P) "firstOpened") with (Ok (field P "firstOpened")) in H.
  rewrite bind_lift_Ok in H. cbv beta zeta in H. cbn [negb orb] in H.
  call H u7 s7 Hm7.
  eapply (preserves_run (world s)) in Hm7 as I7; [|frame|exact Iw].
  step H. step H. unfold await in H. step_lift H.
  apply all_pair_Ok in Hx as (r2 & r3 & _ & Hb). apply void_Ok in Hb as [st Hsave].
  assert (I8 : world s (scaffold E cfg2 s7).2).
  { apply (preserves_run (world s) (scaffold E cfg2) s7 (scaffold E cfg2 s7).1);
      [frame|destruct (scaffold E cfg2 s7); reflexivity|exact I7]. }
  set (s8 := (scaffold E cfg2 s7).2) in *.
  cbn [clock set_this set_pluginsOnError] in *.
  destruct Iw as (_ & Hclock & _).
  rewrite Hclock in *.
  match type of Hsave with (saveState E ?ch s8).1 = _ => set (changes := ch) in * end.
  destruct (saveState E changes s8) as [r9 s9] eqn:Hs9. cbn [fst snd] in *.
  subst r9. apply saveState_persists in Hs9 as (Hp9 & Hc9 & Hr9 & Ht9 & _).
  assert (I9 : world s9 s').
  { eapply (preserves_run (world s9)); [|exact H|apply world_refl]. frame. }
  destruct I9 as (Hp & _ & Hr & _). destruct I8 as (Hp8 & _ & Hr8 & _).
  unfold persistedState in *. rewrite Hp, Hr, Hp9, Hp8, Hr8.
  subst changes. destruct (truthy (field P "firstOpened")); reflexivity.
Qed.

End OpenState.

